(** * tsjoi: TypeScript type declarations to Joi schemas

    A shallow embedding of [src/tsjoi.ts].  The TypeScript compiler API is an
    external collaborator: its syntax tree is modelled by the inductive types
    of [Module Ast] (only the fields the program reads), and its parser
    [ts.createSourceFile] is a parameter of [ts2joi].  A JavaScript
    [throw new Error(...)] is the [Throw] case of [result]. *)

From Stdlib Require Import String Ascii List Bool Arith Lia Permutation.
Import ListNotations.
Local Open Scope list_scope.
Local Open Scope string_scope.

(** ** The syntax tree the program reads *)

Module Ast.

(** Keyword kinds.  The first eleven are the ones listed in the [switch]
    of [type2joi]; the literal null type is the token [NullKeyword], the
    kind [union2joi] looks for.  [ThisKeyword] is the kind of the
    expression [this]: the parser gives the type [this] the kind
    [ThisType], so no type node it returns has the kind [ThisKeyword]. *)
Inductive KeywordKind : Type :=
| AnyKeyword | NumberKeyword | ObjectKeyword | BooleanKeyword
| StringKeyword | SymbolKeyword | ThisKeyword | VoidKeyword
| UndefinedKeyword | NullKeyword | NeverKeyword
| UnknownKeyword | BigIntKeyword.

(** Kinds of type nodes whose children the program never looks at. *)
Inductive OtherTypeKind : Type :=
| TypePredicate | FunctionType | ConstructorType | TypeQuery | TupleType
| OptionalType | RestType | IntersectionType | ConditionalType | InferType
| ParenthesizedType | ThisType | TypeOperator | IndexedAccessType
| MappedType | ImportType | ExpressionWithTypeArguments.

(** [ts.SyntaxKind], restricted to the kinds a [ts.TypeNode] can have. *)
Inductive SyntaxKind : Type :=
| Keyword (k : KeywordKind)
| UnionType | ArrayType | TypeLiteral | TypeReference | LiteralType
| OtherType (k : OtherTypeKind).

Record Identifier : Type := { escapedText : string }.

(** [ts.EntityName], the [typeName] of a type reference. *)
Inductive EntityName : Type :=
| EIdentifier (id : Identifier)
| QualifiedName (left : EntityName) (right : Identifier).

(** [ts.PropertyName], the [name] of a property signature. *)
Inductive PropertyName : Type :=
| PIdentifier (id : Identifier)
| PStringLiteral (text : string)
| PNumericLiteral (text : string)
| PComputedPropertyName.

(** The [literal] of a [ts.LiteralTypeNode]. *)
Inductive Literal : Type :=
| StringLiteral (text : string)
| NumericLiteral (text : string)
| BooleanLiteral (b : bool)
| PrefixUnaryExpression (text : string).

(** Members of an interface or of a type literal other than property
    signatures. *)
Inductive OtherElementKind : Type :=
| CallSignature | ConstructSignature | MethodSignature | IndexSignature.

#[warnings="-register-all"] Inductive TypeNode : Type :=
| KeywordTypeNode (k : KeywordKind)
| UnionTypeNode (types : list TypeNode)
| ArrayTypeNode (elementType : TypeNode)
| TypeLiteralNode (members : list TypeElement)
| TypeReferenceNode (typeName : EntityName)
| LiteralTypeNode (literal : Literal)
| OtherTypeNode (k : OtherTypeKind)
with TypeElement : Type :=
| PropertySignature (name : PropertyName) (questionToken : bool)
                    (type : option TypeNode)
| OtherTypeElement (k : OtherElementKind).

(** [tp.kind] *)
Definition kind (tp : TypeNode) : SyntaxKind :=
  match tp with
  | KeywordTypeNode k => Keyword k
  | UnionTypeNode _ => UnionType
  | ArrayTypeNode _ => ArrayType
  | TypeLiteralNode _ => TypeLiteral
  | TypeReferenceNode _ => TypeReference
  | LiteralTypeNode _ => LiteralType
  | OtherTypeNode k => OtherType k
  end.

(** [tp.getText()] of a keyword token: the keyword as it is spelled. *)
Definition keywordText (k : KeywordKind) : string :=
  match k with
  | AnyKeyword => "any"
  | NumberKeyword => "number"
  | ObjectKeyword => "object"
  | BooleanKeyword => "boolean"
  | StringKeyword => "string"
  | SymbolKeyword => "symbol"
  | ThisKeyword => "this"
  | VoidKeyword => "void"
  | UndefinedKeyword => "undefined"
  | NullKeyword => "null"
  | NeverKeyword => "never"
  | UnknownKeyword => "unknown"
  | BigIntKeyword => "bigint"
  end.

(** [k === ts.SyntaxKind.NullKeyword] *)
Definition isNullKeyword (k : SyntaxKind) : bool :=
  match k with
  | Keyword NullKeyword => true
  | _ => false
  end.

(** [ts.isLiteralTypeNode(x) && ts.isStringLiteral(x.literal)] *)
Definition isStringLiteralType (x : TypeNode) : bool :=
  match x with
  | LiteralTypeNode (StringLiteral _) => true
  | _ => false
  end.

(** [((x as ts.LiteralTypeNode).literal as ts.StringLiteral).text].  The
    program reads it only after the [all] test of [union2joi] has passed,
    that is on string-literal types; the last case is never reached. *)
Definition literalText (x : TypeNode) : string :=
  match x with
  | LiteralTypeNode (StringLiteral text) => text
  | _ => EmptyString
  end.

(** [ts.isPropertySignature] *)
Definition isPropertySignature (x : TypeElement) : bool :=
  match x with
  | PropertySignature _ _ _ => true
  | OtherTypeElement _ => false
  end.

(** [ts.isIdentifier(x.name)] on a member that is a property signature. *)
Definition hasIdentifierName (x : TypeElement) : bool :=
  match x with
  | PropertySignature (PIdentifier _) _ _ => true
  | _ => false
  end.

(** Top-level statements other than the two the program compiles. *)
Inductive OtherStatementKind : Type :=
| ClassDeclaration | FunctionDeclaration | VariableStatement
| EnumDeclaration | ModuleDeclaration | ImportDeclaration
| ExportDeclaration | ExportAssignment | ExpressionStatement
| EmptyStatement.

(** [ts.Statement]; [name] is [node.name.getText()]. *)
Inductive Statement : Type :=
| InterfaceDeclaration (name : string) (members : list TypeElement)
| TypeAliasDeclaration (name : string) (type : TypeNode)
| OtherStatement (k : OtherStatementKind).

Record SourceFile : Type := { statements : list Statement }.

End Ast.
Import Ast.

(** ** Results of code that may throw *)

(** The three [throw new Error(...)] of the program.  Each message
    interpolates [tp.getText()], the source text of the offending node; the
    node itself stands for it:
    - [CannotConvertUnion]: `Cannot convert the following type yet: ...`,
      thrown by [union2joi];
    - [CannotConvertQualifiedName]: `Cannot convert QualifiedName yet: ...`,
      thrown by [reference2joi];
    - [CannotConvertType]: `Cannot convert type ... yet`, thrown by
      [type2joi]. *)
Inductive UnsupportedConstruct : Type :=
| CannotConvertUnion (tp : TypeNode)
| CannotConvertQualifiedName (tp : TypeNode)
| CannotConvertType (tp : TypeNode).

Inductive result (A : Type) : Type :=
| Ok (a : A)
| Throw (e : UnsupportedConstruct).
Arguments Ok {A} a.
Arguments Throw {A} e.

Definition bind {A B : Type} (m : result A) (f : A -> result B) : result B :=
  match m with
  | Ok a => f a
  | Throw e => Throw e
  end.

Notation "x <- m ;; k" := (bind m (fun x => k))
  (at level 61, m at next level, right associativity).

(** [array.map(f)] for an [f] that may throw: elements are visited in
    order and the first exception ends the traversal. *)
Fixpoint mapM {A B : Type} (f : A -> result B) (array : list A)
  : result (list B) :=
  match array with
  | [] => Ok []
  | x :: rest =>
      y <- f x ;;
      ys <- mapM f rest ;;
      Ok (y :: ys)
  end.

(** [members.filter(p).map(f)] for an [f] that may throw, in one traversal
    ([filterMapM_filter] below shows it is the composition). *)
Fixpoint filterMapM {A B : Type} (p : A -> bool) (f : A -> result B)
    (array : list A) : result (list B) :=
  match array with
  | [] => Ok []
  | x :: rest =>
      if p x then
        y <- f x ;;
        ys <- filterMapM p f rest ;;
        Ok (y :: ys)
      else filterMapM p f rest
  end.

(** ** JavaScript library functions the program calls *)

(** The line feed written [\n] in the program's string literals. *)
Definition LF : string := String (ascii_of_nat 10) EmptyString.

(** The double quote character. *)
Definition DQUOTE : string := String (ascii_of_nat 34) EmptyString.

(** [Array.prototype.join] on an array of strings. *)
Definition join (sep : string) (array : list string) : string :=
  String.concat sep array.

(** [Array.prototype.join] turns a [null] element into the empty string. *)
Definition toJoinString (x : option string) : string :=
  match x with
  | Some s => s
  | None => EmptyString
  end.

Definition joinNullable (sep : string) (array : list (option string)) : string :=
  join sep (map toJoinString array).

(** [array.filter(x => x !== null)] *)
Fixpoint filterNotNull (array : list (option string)) : list string :=
  match array with
  | [] => []
  | Some s :: rest => s :: filterNotNull rest
  | None :: rest => filterNotNull rest
  end.

(** [Array(indent).fill(' ').join('')] *)
Definition spaces (indent : nat) : string :=
  join EmptyString (repeat " " indent).

(** [s.endsWith(suffix)] *)
Definition endsWith (s suffix : string) : bool :=
  Nat.leb (String.length suffix) (String.length s) &&
  String.eqb (substring (String.length s - String.length suffix)
                        (String.length suffix) s) suffix.

(** [s.slice(0, -n)] *)
Definition sliceDropLast (n : nat) (s : string) : string :=
  substring 0 (String.length s - n) s.

(** ** The program *)

(** [all(predicate, array)] *)
Fixpoint all {T : Type} (predicate : T -> bool) (array : list T) : bool :=
  match array with
  | [] => true
  | x :: rest => if negb (predicate x) then false else all predicate rest
  end.

(** [makeTypeGuard(name, type, schema)] *)
Definition makeTypeGuard (name type schema : string) : string :=
  "export function " ++ name ++ "(obj: any): obj is T." ++ type ++ " {" ++ LF ++
  "  return " ++ schema ++ ".validate(obj).error === null" ++ LF ++
  "}" ++ LF.

(** [const r = required ? '.required()' : ''] in [type2joi]. *)
Definition requiredMarker (required : bool) : string :=
  if required then ".required()" else EmptyString.

(** [const notnull = types[0] === ts.SyntaxKind.NullKeyword ? tp.types[1] :
    tp.types[0]] in [union2joi], on a union of two members. *)
Definition notnull (types0 types1 : TypeNode) : TypeNode :=
  if isNullKeyword (kind types0) then types1 else types0.

(** [const values = tp.types.map(x => x.literal.text).map(x => `"${x}"`)]
    in [union2joi]. *)
Definition values (tp_types : list TypeNode) : list string :=
  map (fun x => DQUOTE ++ x ++ DQUOTE) (map literalText tp_types).

Section Renderer.

(** The module-level variable [SUFFIX]: [ts2joi] assigns it once, before
    any rendering, and every other function only reads it. *)
Variable SUFFIX : string.

Section Callees.

(** The functions [type2joi] calls, written over the recursive
    reference to [type2joi]. *)
Variable type2joi : TypeNode -> bool -> nat -> result string.

(** [union2joi(tp)], with [tp.types] for [tp]. *)
Definition union2joi_body (tp_types : list TypeNode) : result string :=
  let types := map kind tp_types in
  (* the statements after the first [if] *)
  let otherwise :=
    if all isStringLiteralType tp_types then
      Ok ("Joi.string().valid([" ++ join ", " (values tp_types) ++ "])")
    else Throw (CannotConvertUnion (UnionTypeNode tp_types)) in
  match tp_types with
  | [types0; types1] =>
      (* tp.types.length === 2 *)
      if existsb isNullKeyword types then
        s <- type2joi (notnull types0 types1) false 0 ;;
        Ok (s ++ ".allow(null)")
      else otherwise
  | _ => otherwise
  end.

(** [array2joi(tp)], with [tp.elementType] for [tp]. *)
Definition array2joi_body (elementType : TypeNode) : result string :=
  elementType <- type2joi elementType false 0 ;;
  Ok ("Joi.array().items(" ++ elementType ++ ")").

(** [prop2joi(prop, indent)]; [None] is [null]. *)
Definition prop2joi_body (prop : TypeElement) (indent : nat)
  : result (option string) :=
  match prop with
  | PropertySignature (PIdentifier name) questionToken (Some type) =>
      let required := if questionToken then false else true in
      typeStr <- type2joi type required indent ;;
      let prefix := spaces indent in
      Ok (Some (prefix ++ escapedText name ++ ": " ++ typeStr))
  | _ => Ok None
  end.

(** [propList2joi(members, indent)] *)
Definition propList2joi_body (members : list TypeElement) (indent : nat)
  : result string :=
  let prefix := spaces indent in
  props <- filterMapM
             (fun x => isPropertySignature x && hasIdentifierName x)
             (fun x => prop2joi_body x (indent + 2))
             members ;;
  let props := joinNullable ("," ++ LF) props in
  Ok ("Joi.object({" ++ LF ++ props ++ LF ++ prefix ++ "})").

(** [literal2joi(tp, indent)], with [tp.members] for [tp]. *)
Definition literal2joi_body (members : list TypeElement) (indent : nat)
  : result string :=
  propList2joi_body members indent.

End Callees.

(** [reference2joi(tp)] *)
Definition reference2joi (tp : TypeNode) : result string :=
  match tp with
  | TypeReferenceNode (EIdentifier typeName) =>
      Ok (escapedText typeName ++ SUFFIX)
  | _ => Throw (CannotConvertQualifiedName tp)
  end.

(** [type2joi(tp, required, indent)] *)
Fixpoint type2joi (tp : TypeNode) (required : bool) (indent : nat)
  {struct tp} : result string :=
  let r := requiredMarker required in
  match tp with
  | KeywordTypeNode
      ((AnyKeyword | NumberKeyword | ObjectKeyword | BooleanKeyword
       | StringKeyword | SymbolKeyword | ThisKeyword | VoidKeyword
       | UndefinedKeyword | NullKeyword | NeverKeyword) as k) =>
      Ok ("Joi." ++ keywordText k ++ "()" ++ r)
  | UnionTypeNode types =>
      s <- union2joi_body type2joi types ;; Ok (s ++ r)
  | ArrayTypeNode elementType =>
      s <- array2joi_body type2joi elementType ;; Ok (s ++ r)
  | TypeLiteralNode members =>
      s <- literal2joi_body type2joi members indent ;; Ok (s ++ r)
  | TypeReferenceNode _ =>
      s <- reference2joi tp ;; Ok (s ++ r)
  | _ => Throw (CannotConvertType tp)
  end.

(** The callees, with the recursive reference bound to [type2joi]. *)
Definition union2joi := union2joi_body type2joi.
Definition array2joi := array2joi_body type2joi.
Definition prop2joi := prop2joi_body type2joi.
Definition propList2joi := propList2joi_body type2joi.
Definition literal2joi := literal2joi_body type2joi.

End Renderer.

(** [stmt2joi(node)]; [None] is [null]. *)
Definition stmt2joi (SUFFIX : string) (node : Statement)
  : result (option string) :=
  match node with
  | InterfaceDeclaration identifier members =>
      properties <- propList2joi SUFFIX members 0 ;;
      let name := identifier ++ SUFFIX in
      let guard := makeTypeGuard ("is" ++ name) identifier name in
      Ok (Some ("export const " ++ name ++ " = " ++ properties ++ LF ++ guard))
  | TypeAliasDeclaration identifier type =>
      typeStr <- type2joi SUFFIX type false 0 ;;
      let name := identifier ++ SUFFIX in
      let guard := makeTypeGuard ("is" ++ name) identifier name in
      Ok (Some ("export const " ++ name ++ " = " ++ typeStr ++ LF ++ guard))
  | OtherStatement _ => Ok None
  end.

(** [Partial<Options>]: a field that is absent is [None]. *)
Record Options : Type := {
  input : option string;
  output : option nat;
  suffix : option string
}.

(** [{}], the default of the parameter [options]. *)
Definition noOptions : Options :=
  {| input := None; output := None; suffix := None |}.

(** The fields of [const opts = { suffix: '', input: 'foo.ts', ...options }]
    that [ts2joi] reads. *)
Definition opts_suffix (options : Options) : string :=
  match suffix options with
  | Some s => s
  | None => EmptyString
  end.

Definition opts_input (options : Options) : string :=
  match input options with
  | Some s => s
  | None => "foo.ts"
  end.

(** The text [ts2joi] puts before the compiled declarations. *)
Definition importLine (fname : string) : string :=
  "// Automatically generated by tsjoi" ++ LF ++
  "import Joi from 'joi'" ++ LF ++
  "import * as T from './" ++ fname ++ "'" ++ LF ++
  LF.

Section Driver.

(** [ts.createSourceFile(fileName, sourceText, ts.ScriptTarget.ES2015,
    true)], the parser of the TypeScript compiler. *)
Variable createSourceFile : string -> string -> SourceFile.

(** [ts2joi(txt, options)] *)
Definition ts2joi (txt : string) (options : Options) : result string :=
  let SUFFIX := opts_suffix options in
  let source := createSourceFile (opts_input options) txt in
  ifaces <- mapM (stmt2joi SUFFIX) (statements source) ;;
  let ifaces := join (LF ++ LF) (filterNotNull ifaces) in
  let fname :=
    if endsWith (opts_input options) ".ts"
    then sliceDropLast 3 (opts_input options)
    else opts_input options in
  Ok (importLine fname ++ ifaces).

End Driver.

(** ** Vocabulary of the specification *)

(** The keywords listed in the [switch] of [type2joi]. *)
Definition supportedKeywords : list KeywordKind :=
  [AnyKeyword; NumberKeyword; ObjectKeyword; BooleanKeyword; StringKeyword;
   SymbolKeyword; ThisKeyword; VoidKeyword; UndefinedKeyword; NullKeyword;
   NeverKeyword].

(** The [case] labels of the [switch] of [type2joi]. *)
Definition inDispatchTable (k : SyntaxKind) : bool :=
  match k with
  | Keyword (UnknownKeyword | BigIntKeyword) => false
  | Keyword _ => true
  | UnionType | ArrayType | TypeLiteral | TypeReference => true
  | LiteralType | OtherType _ => false
  end.

(** [ts.isInterfaceDeclaration] *)
Definition isInterfaceDeclaration (node : Statement) : bool :=
  match node with
  | InterfaceDeclaration _ _ => true
  | _ => false
  end.

(** [ts.isTypeAliasDeclaration] *)
Definition isTypeAliasDeclaration (node : Statement) : bool :=
  match node with
  | TypeAliasDeclaration _ _ => true
  | _ => false
  end.

(** A union member that is the literal null type. *)
Definition isNullType (tp : TypeNode) : bool := isNullKeyword (kind tp).

(** Union shape A: exactly two members, one of them the literal null
    type. *)
Definition nullableShape (tp_types : list TypeNode) : Prop :=
  length tp_types = 2 /\ exists x, In x tp_types /\ isNullType x = true.

(** Union shape B: every member is a string-literal type. *)
Definition stringEnumShape (tp_types : list TypeNode) : Prop :=
  Forall (fun x => isStringLiteralType x = true) tp_types.

(** The list whose [k]-th element is the element of [l] at the [k]-th
    index of [p]: a reordering of [l] when [p] permutes its indices. *)
Definition reorder {A : Type} (p : list nat) (l : list A) : list A :=
  flat_map (fun i => match nth_error l i with
                     | Some x => [x]
                     | None => []
                     end) p.

(** The type nodes of [null], [string], [number] and [boolean]. *)
Definition nullType : TypeNode := KeywordTypeNode NullKeyword.
Definition stringType : TypeNode := KeywordTypeNode StringKeyword.
Definition numberType : TypeNode := KeywordTypeNode NumberKeyword.
Definition booleanType : TypeNode := KeywordTypeNode BooleanKeyword.

(** The type node the parser returns for the type [this], as in
    [interface Foo { self: this }]: its kind is [ThisType]. *)
Definition thisType : TypeNode := OtherTypeNode ThisType.

(** The keywords of the [switch] of [type2joi] that the parser returns as
    type nodes: all of them but [ThisKeyword]. *)
Definition parsedKeywords : list KeywordKind :=
  [AnyKeyword; NumberKeyword; ObjectKeyword; BooleanKeyword; StringKeyword;
   SymbolKeyword; VoidKeyword; UndefinedKeyword; NullKeyword; NeverKeyword].

(** The type node of the string literal ["text"]. *)
Definition stringLiteralType (text : string) : TypeNode :=
  LiteralTypeNode (StringLiteral text).

(** The property signatures [name: type], [name?: type] and [name]. *)
Definition property (name : string) (type : TypeNode) : TypeElement :=
  PropertySignature (PIdentifier {| escapedText := name |}) false (Some type).
Definition optionalProperty (name : string) (type : TypeNode) : TypeElement :=
  PropertySignature (PIdentifier {| escapedText := name |}) true (Some type).
Definition untypedProperty (name : string) : TypeElement :=
  PropertySignature (PIdentifier {| escapedText := name |}) false None.

(** The declarations [stmt2joi] compiles. *)
Definition isSupportedDeclaration (node : Statement) : bool :=
  isInterfaceDeclaration node || isTypeAliasDeclaration node.

(** A parser whose result is the given list of statements. *)
Definition parsesTo (stmts : list Statement) : string -> string -> SourceFile :=
  fun _ _ => {| statements := stmts |}.

(** The parser [createSourceFile] with the statements that are neither
    interfaces nor type aliases erased from its result. *)
Definition withoutOtherStatements
    (createSourceFile : string -> string -> SourceFile)
  : string -> string -> SourceFile :=
  fun fileName sourceText =>
    {| statements :=
         filter isSupportedDeclaration
                (statements (createSourceFile fileName sourceText)) |}.

(** The type node of the reference [A.B], by a qualified name. *)
Definition qualifiedReference : TypeNode :=
  TypeReferenceNode
    (QualifiedName (EIdentifier {| escapedText := "A" |})
                   {| escapedText := "B" |}).

(** [interface Good { a: string }] followed by
    [type Bad = { a: A.B }[]]. *)
Definition goodThenBad : list Statement :=
  [InterfaceDeclaration "Good" [property "a" stringType];
   TypeAliasDeclaration "Bad"
     (ArrayTypeNode (TypeLiteralNode [property "a" qualifiedReference]))].

(** [raisedWithin SUFFIX e tp indent]: rendering [tp] at [indent] comes
    to a [throw] of [e], at [tp] itself or at a type expression inside
    it that the renderer reaches: the element of an array, the non-null
    member of a nullable union, or the type of a property of an object
    literal whose earlier members render. *)
Inductive raisedWithin (SUFFIX : string)
  : UnsupportedConstruct -> TypeNode -> nat -> Prop :=
| raised_by_type2joi (tp : TypeNode) (indent : nat) :
    inDispatchTable (kind tp) = false ->
    raisedWithin SUFFIX (CannotConvertType tp) tp indent
| raised_by_union2joi (tp_types : list TypeNode) (indent : nat) :
    ~ nullableShape tp_types ->
    ~ stringEnumShape tp_types ->
    raisedWithin SUFFIX (CannotConvertUnion (UnionTypeNode tp_types))
                 (UnionTypeNode tp_types) indent
| raised_by_reference2joi (left : EntityName) (right : Identifier)
    (indent : nat) :
    raisedWithin SUFFIX
      (CannotConvertQualifiedName
         (TypeReferenceNode (QualifiedName left right)))
      (TypeReferenceNode (QualifiedName left right)) indent
| raised_in_array (e : UnsupportedConstruct) (elementType : TypeNode)
    (indent : nat) :
    raisedWithin SUFFIX e elementType 0 ->
    raisedWithin SUFFIX e (ArrayTypeNode elementType) indent
| raised_in_nullable (e : UnsupportedConstruct)
    (types0 types1 member : TypeNode) (indent : nat) :
    (isNullType types0 = true /\ member = types1) \/
    (isNullType types0 = false /\ isNullType types1 = true /\
     member = types0) ->
    raisedWithin SUFFIX e member 0 ->
    raisedWithin SUFFIX e (UnionTypeNode [types0; types1]) indent
| raised_in_object_literal (e : UnsupportedConstruct)
    (pre : list TypeElement) (name : Identifier) (questionToken : bool)
    (type : TypeNode) (post : list TypeElement) (indent : nat) :
    (forall d, In d pre ->
               exists o, prop2joi SUFFIX d (indent + 2) = Ok o) ->
    raisedWithin SUFFIX e type (indent + 2) ->
    raisedWithin SUFFIX e
      (TypeLiteralNode
         (pre ++ PropertySignature (PIdentifier name) questionToken
                   (Some type) :: post)%list)
      indent.

(** ** The command line *)

(** [interface Options], as [getOpts] builds it: [input] and [output]
    are always there, [suffix] only when it was given. *)
Record CliOptions : Type := {
  cli_input : string;
  cli_output : nat;
  cli_suffix : option string
}.

(** A [CliOptions] passed where [ts2joi] takes a [Partial<Options>]. *)
Definition asPartial (opts : CliOptions) : Options :=
  {| input := Some (cli_input opts);
     output := Some (cli_output opts);
     suffix := cli_suffix opts |}.

(** The calls the command line makes to [console], [process] and [fs]. *)
Inductive Call : Type :=
| console_error (msg : string)
| process_exit (code : nat)
| fs_openSync (path flags : string)
| fs_readFileSync (path : string)
| fs_writeSync (fd : nat) (text : string).

(** What the file system answers: [None] when [fs.openSync] or
    [fs.readFileSync] throws, [false] when [fs.writeSync] throws (the
    program does not use what it returns).  [fs.openSync] is the first
    call the program can make; the answers of [fs.readFileSync] and
    [fs.writeSync] may depend on the calls made before them. *)
Record FileSystem : Type := {
  openSync : string -> option nat;
  readFileSync : list Call -> string -> option string;
  writeSync : list Call -> nat -> string -> bool
}.

(** How a run of command-line code ends: it returns, the process exits
    (after the [process_exit] call that ends the trace), the last [fs]
    call of the trace throws, or [ts2joi] throws. *)
Inductive Ending (A : Type) : Type :=
| Returns (a : A)
| Exits
| ThrowsFs
| ThrowsUnsupported (e : UnsupportedConstruct).
Arguments Returns {A} a.
Arguments Exits {A}.
Arguments ThrowsFs {A}.
Arguments ThrowsUnsupported {A} e.

(** [die(msg)]: the calls it makes; it does not return. *)
Definition die (msg : string) : list Call :=
  [console_error msg; process_exit 1].

(** [usage()] *)
Definition usage : list Call :=
  let lines :=
    ["Usage: tsjoi [-s SUFFIX] INPUT [OUTPUT]";
     "Read TypeScript's types from INPUT and writes Joi schemas on OUTPUT"] in
  die (join LF lines).

(** A value of type [string | undefined] in a condition: [undefined] and
    the empty string are false. *)
Definition truthy (x : option string) : option string :=
  match x with
  | Some s => if String.eqb s EmptyString then None else Some s
  | None => None
  end.

(** [args[0] === '-s'] *)
Definition isSuffixFlag (args : list string) : bool :=
  match nth_error args 0 with
  | Some a => String.eqb a "-s"
  | None => false
  end.

(** [getOpts()], for [process.argv = argv]. *)
Definition getOpts (fs : FileSystem) (argv : list string)
  : list Call * Ending CliOptions :=
  let args := skipn 2 argv in
  let suffix := if isSuffixFlag args then nth_error args 1 else None in
  let args := if isSuffixFlag args then skipn 2 args else args in
  if Nat.ltb (length args) 1 || Nat.ltb 2 (length args) then (usage, Exits)
  else
    match args with
    | [] => (usage, Exits)
    | args0 :: _ =>
        let input := if String.eqb args0 "-" then "/dev/stdin" else args0 in
        let opts output :=
          {| cli_input := input;
             cli_output := output;
             cli_suffix := truthy suffix |} in
        match truthy (nth_error args 1) with
        | Some args1 =>
            match openSync fs args1 with
            | Some fd => ([fs_openSync args1 "w"], Returns (opts fd))
            | None => ([fs_openSync args1 "w"], ThrowsFs)
            end
        | None => ([], Returns (opts 1))
        end
    end.

(** [main()], for [process.argv = argv]. *)
Definition main (createSourceFile : string -> string -> SourceFile)
    (fs : FileSystem) (argv : list string) : list Call * Ending unit :=
  match getOpts fs argv with
  | (before, Returns opts) =>
      let calls := (before ++ [fs_readFileSync (cli_input opts)])%list in
      match readFileSync fs before (cli_input opts) with
      | None => (calls, ThrowsFs)
      | Some txt =>
          match ts2joi createSourceFile txt (asPartial opts) with
          | Throw e => (calls, ThrowsUnsupported e)
          | Ok text =>
              ((calls ++ [fs_writeSync (cli_output opts) text])%list,
               if writeSync fs calls (cli_output opts) text
               then Returns tt
               else ThrowsFs)
          end
      end
  | (calls, Exits) => (calls, Exits)
  | (calls, ThrowsFs) => (calls, ThrowsFs)
  | (calls, ThrowsUnsupported e) => (calls, ThrowsUnsupported e)
  end.

(** The arguments [getOpts] is left with after [-s SUFFIX] is taken
    off: [INPUT] and [OUTPUT]. *)
Definition positionalArgs (argv : list string) : list string :=
  let args := skipn 2 argv in
  if isSuffixFlag args then skipn 2 args else args.

(** The argument after a leading [-s], if there is one: what [getOpts]
    assigns to [suffix]. *)
Definition suffixArg (argv : list string) : option string :=
  let args := skipn 2 argv in
  if isSuffixFlag args then nth_error args 1 else None.

(** The input path [getOpts] makes of the argument [INPUT]. *)
Definition inputPath (arg : string) : string :=
  if String.eqb arg "-" then "/dev/stdin" else arg.


(** ** More vocabulary *)

(** The error of a result, if it is one. *)
Definition errorOf {A : Type} (m : result A) : option UnsupportedConstruct :=
  match m with
  | Ok _ => None
  | Throw e => Some e
  end.

(** The members [propList2joi] keeps:
    [.filter(ts.isPropertySignature).filter(x => ts.isIdentifier(x.name))]. *)
Definition keptMembers (members : list TypeElement) : list TypeElement :=
  filter hasIdentifierName (filter isPropertySignature members).

(** The types the renderer converts: the eleven keywords, references by
    a plain identifier, arrays of convertible types, two-member unions
    with a null member whose selected member is convertible, other unions
    of string-literal types only, and object literals whose kept members
    have no type or a convertible one. *)
Fixpoint supported (tp : TypeNode) : bool :=
  match tp with
  | KeywordTypeNode k => inDispatchTable (Keyword k)
  | UnionTypeNode tp_types =>
      match tp_types with
      | [types0; types1] =>
          if isNullType types0 || isNullType types1
          then supported (notnull types0 types1)
          else all isStringLiteralType tp_types
      | _ => all isStringLiteralType tp_types
      end
  | ArrayTypeNode elementType => supported elementType
  | TypeLiteralNode members => forallb supportedMember members
  | TypeReferenceNode (EIdentifier _) => true
  | TypeReferenceNode (QualifiedName _ _) => false
  | LiteralTypeNode _ => false
  | OtherTypeNode _ => false
  end
with supportedMember (member : TypeElement) : bool :=
  match member with
  | PropertySignature (PIdentifier _) _ (Some type) => supported type
  | _ => true
  end.

(** The statements [stmt2joi] does not throw on: a type alias of a
    convertible type, an interface whose members are convertible, and any
    statement of another kind. *)
Definition compilable (node : Statement) : bool :=
  match node with
  | InterfaceDeclaration _ members => forallb supportedMember members
  | TypeAliasDeclaration _ type => supported type
  | OtherStatement _ => true
  end.

(** [const fname = opts.input.endsWith('.ts') ? opts.input.slice(0, -3) :
    opts.input] in [ts2joi]. *)
Definition fnameOf (opts_input : string) : string :=
  if endsWith opts_input ".ts"
  then sliceDropLast 3 opts_input
  else opts_input.

(** ** Properties of the helpers *)

Lemma append_assoc (a b c : string) : (a ++ b) ++ c = a ++ (b ++ c).
Proof.
  induction a as [|ch a IH]; simpl; [reflexivity | now rewrite IH].
Qed.

Lemma append_empty_r (a : string) : a ++ EmptyString = a.
Proof.
  induction a as [|ch a IH]; simpl; [reflexivity | now rewrite IH].
Qed.

Lemma bind_Ok {A B : Type} (a : A) (f : A -> result B) :
  bind (Ok a) f = f a.
Proof. reflexivity. Qed.

Lemma bind_Throw {A B : Type} (e : UnsupportedConstruct) (f : A -> result B) :
  bind (Throw e) f = Throw e.
Proof. reflexivity. Qed.

Lemma bind_assoc {A B C : Type} (m : result A) (f : A -> result B)
    (g : B -> result C) :
  bind (bind m f) g = bind m (fun a => bind (f a) g).
Proof. destruct m; reflexivity. Qed.

Lemma bind_inv_Throw {A B : Type} (m : result A) (f : A -> result B) e :
  bind m f = Throw e ->
  m = Throw e \/ exists a, m = Ok a /\ f a = Throw e.
Proof.
  destruct m as [a|e0]; simpl; intros H.
  - right; exists a; auto.
  - left; now inversion H.
Qed.

(** The one-pass traversal is the composition the program writes. *)
Lemma filterMapM_filter {A B : Type} (p : A -> bool) (f : A -> result B)
    (array : list A) :
  filterMapM p f array = mapM f (filter p array).
Proof.
  induction array as [|x rest IH]; simpl; [reflexivity|].
  destruct (p x); simpl; now rewrite IH.
Qed.

Lemma filter_andb {A : Type} (p q : A -> bool) (l : list A) :
  filter (fun x => p x && q x) l = filter q (filter p l).
Proof.
  induction l as [|x l IH]; simpl; [reflexivity|].
  destruct (p x); simpl; [destruct (q x)|]; now rewrite IH.
Qed.

(** [propList2joi] as the program writes it:
    [members.filter(ts.isPropertySignature).filter(x =>
    ts.isIdentifier(x.name)).map(x => prop2joi(x, indent + 2)).join(',\n')]. *)
Lemma propList2joi_pipeline SUFFIX (members : list TypeElement) (indent : nat) :
  propList2joi SUFFIX members indent =
  (props <- mapM (fun x => prop2joi SUFFIX x (indent + 2))
              (filter hasIdentifierName (filter isPropertySignature members)) ;;
   Ok ("Joi.object({" ++ LF ++ joinNullable ("," ++ LF) props ++ LF ++
       spaces indent ++ "})")).
Proof.
  unfold propList2joi, propList2joi_body.
  now rewrite filterMapM_filter, filter_andb.
Qed.

(** Unfolding equations of [type2joi]. *)
Lemma type2joi_union SUFFIX types required indent :
  type2joi SUFFIX (UnionTypeNode types) required indent =
  (s <- union2joi SUFFIX types ;; Ok (s ++ requiredMarker required)).
Proof. reflexivity. Qed.

Lemma type2joi_array SUFFIX elementType required indent :
  type2joi SUFFIX (ArrayTypeNode elementType) required indent =
  (s <- array2joi SUFFIX elementType ;; Ok (s ++ requiredMarker required)).
Proof. reflexivity. Qed.

Lemma type2joi_literal SUFFIX members required indent :
  type2joi SUFFIX (TypeLiteralNode members) required indent =
  (s <- literal2joi SUFFIX members indent ;;
   Ok (s ++ requiredMarker required)).
Proof. reflexivity. Qed.

Lemma type2joi_reference SUFFIX typeName required indent :
  type2joi SUFFIX (TypeReferenceNode typeName) required indent =
  (s <- reference2joi SUFFIX (TypeReferenceNode typeName) ;;
   Ok (s ++ requiredMarker required)).
Proof. reflexivity. Qed.

(** ** Nullable unions and arrays *)

Lemma isNullType_inv (tp : TypeNode) :
  isNullType tp = true -> tp = nullType.
Proof.
  destruct tp as [k| | | | | |]; try discriminate.
  destruct k; try discriminate; reflexivity.
Qed.

(** The first branch of [union2joi]: two members, a null keyword among
    their kinds. *)
Lemma union2joi_nullable SUFFIX (types0 types1 : TypeNode) :
  isNullType types0 || isNullType types1 = true ->
  union2joi SUFFIX [types0; types1] =
  (s <- type2joi SUFFIX (notnull types0 types1) false 0 ;;
   Ok (s ++ ".allow(null)")).
Proof.
  intros H. unfold union2joi, union2joi_body. cbn [map existsb].
  unfold isNullType in H. rewrite orb_false_r, H. reflexivity.
Qed.

Lemma type2joi_nullable SUFFIX (types0 types1 : TypeNode) required indent :
  isNullType types0 || isNullType types1 = true ->
  type2joi SUFFIX (UnionTypeNode [types0; types1]) required indent =
  (s <- type2joi SUFFIX (notnull types0 types1) false 0 ;;
   Ok (s ++ ".allow(null)" ++ requiredMarker required)).
Proof.
  intros H. rewrite type2joi_union, (union2joi_nullable _ _ _ H), bind_assoc.
  destruct (type2joi SUFFIX (notnull types0 types1) false 0); simpl;
    [now rewrite append_assoc | reflexivity].
Qed.

Lemma notnull_null_r (T : TypeNode) : notnull T nullType = T.
Proof.
  unfold notnull. destruct (isNullKeyword (kind T)) eqn:E; [|reflexivity].
  symmetry. now apply isNullType_inv.
Qed.

Lemma notnull_null_l (T : TypeNode) : notnull nullType T = T.
Proof. reflexivity. Qed.

(** C1, as stated, fails when the union is rendered as required: for
    [string | null] the program appends the required marker after the
    allow-null modifier, so the text is not the one of [string] rendered
    as non-required with the modifier appended. *)
Lemma nullable_union_required_counterexample :
  type2joi EmptyString (UnionTypeNode [stringType; nullType]) true 0
    = Ok "Joi.string().allow(null).required()" /\
  (s <- type2joi EmptyString stringType false 0 ;; Ok (s ++ ".allow(null)"))
    = Ok "Joi.string().allow(null)" /\
  type2joi EmptyString (UnionTypeNode [stringType; nullType]) true 0
    <> (s <- type2joi EmptyString stringType false 0 ;;
        Ok (s ++ ".allow(null)")).
Proof.
  repeat split; try reflexivity. vm_compute. discriminate.
Qed.

(** C1 (amended): for every type expression [T], every required flag and
    every indent, rendering [T | null] or [null | T] is rendering [T] as
    non-required at indent 0 with [.allow(null)] appended, followed by the
    required marker of the caller's flag; an error of rendering [T] is the
    error of the union.  [T] is arbitrary, so this holds at any depth. *)
Theorem nullable_union_renders_member_not_required
    SUFFIX (T : TypeNode) (required : bool) (indent : nat) :
  type2joi SUFFIX (UnionTypeNode [T; nullType]) required indent =
    (s <- type2joi SUFFIX T false 0 ;;
     Ok (s ++ ".allow(null)" ++ requiredMarker required)) /\
  type2joi SUFFIX (UnionTypeNode [nullType; T]) required indent =
    (s <- type2joi SUFFIX T false 0 ;;
     Ok (s ++ ".allow(null)" ++ requiredMarker required)).
Proof.
  split.
  - rewrite type2joi_nullable, notnull_null_r; [reflexivity|].
    apply orb_true_r.
  - rewrite type2joi_nullable, notnull_null_l; reflexivity.
Qed.

(** [string[] | null], as a required and as an optional field. *)
Example nullable_array_of_string :
  type2joi EmptyString (UnionTypeNode [ArrayTypeNode stringType; nullType])
           true 4
    = Ok "Joi.array().items(Joi.string()).allow(null).required()" /\
  type2joi EmptyString (UnionTypeNode [ArrayTypeNode stringType; nullType])
           false 4
    = Ok "Joi.array().items(Joi.string()).allow(null)".
Proof. split; reflexivity. Qed.

(** The member a nullable union renders is the one that is not null:
    the second when the first is null, the first when it is not. *)
Lemma type2joi_nullable_member SUFFIX (types0 types1 member : TypeNode)
    required indent :
  (isNullType types0 = true /\ member = types1) \/
  (isNullType types0 = false /\ isNullType types1 = true /\ member = types0) ->
  type2joi SUFFIX (UnionTypeNode [types0; types1]) required indent =
  (s <- type2joi SUFFIX member false 0 ;;
   Ok (s ++ ".allow(null)" ++ requiredMarker required)).
Proof.
  intros [[H0 ->]|[H0 [H1 ->]]].
  - rewrite type2joi_nullable by now rewrite H0.
    unfold notnull. unfold isNullType in H0. now rewrite H0.
  - rewrite type2joi_nullable by (rewrite H1; apply orb_true_r).
    unfold notnull. unfold isNullType in H0. now rewrite H0.
Qed.

Lemma type2joi_object_literal SUFFIX members required indent :
  type2joi SUFFIX (TypeLiteralNode members) required indent =
  (s <- propList2joi SUFFIX members indent ;;
   Ok (s ++ requiredMarker required)).
Proof. reflexivity. Qed.

(** C9: the element type of an array is rendered as non-required at
    indent 0 whatever the flag and indent of the array.  So is the
    non-null member of a two-member union with a null member, whichever
    of the two comes first: [T] in [T | null] and in [null | T], and in
    general the second member when the first is null and the first
    member otherwise.  An object literal in either position is therefore
    laid out by [propList2joi] at indent 0, not at the enclosing
    indent. *)
Theorem element_rendered_not_required_at_indent_0 SUFFIX :
  (forall elementType required indent,
     type2joi SUFFIX (ArrayTypeNode elementType) required indent =
     (s <- type2joi SUFFIX elementType false 0 ;;
      Ok ("Joi.array().items(" ++ s ++ ")" ++ requiredMarker required))) /\
  (forall types0 types1 required indent,
     isNullType types0 || isNullType types1 = true ->
     type2joi SUFFIX (UnionTypeNode [types0; types1]) required indent =
     (s <- type2joi SUFFIX (notnull types0 types1) false 0 ;;
      Ok (s ++ ".allow(null)" ++ requiredMarker required))) /\
  (forall members required indent,
     type2joi SUFFIX (ArrayTypeNode (TypeLiteralNode members)) required indent =
     (s <- propList2joi SUFFIX members 0 ;;
      Ok ("Joi.array().items(" ++ s ++ ")" ++ requiredMarker required))) /\
  (forall members required indent,
     type2joi SUFFIX (UnionTypeNode [TypeLiteralNode members; nullType])
              required indent =
     (s <- propList2joi SUFFIX members 0 ;;
      Ok (s ++ ".allow(null)" ++ requiredMarker required))) /\
  (forall T required indent,
     type2joi SUFFIX (UnionTypeNode [nullType; T]) required indent =
     (s <- type2joi SUFFIX T false 0 ;;
      Ok (s ++ ".allow(null)" ++ requiredMarker required))) /\
  (forall T required indent,
     type2joi SUFFIX (UnionTypeNode [T; nullType]) required indent =
     (s <- type2joi SUFFIX T false 0 ;;
      Ok (s ++ ".allow(null)" ++ requiredMarker required))) /\
  (forall types0 types1 required indent,
     isNullType types0 || isNullType types1 = true ->
     isNullType types0 && isNullType types1 = false ->
     exists member,
       In member [types0; types1] /\
       isNullType member = false /\
       type2joi SUFFIX (UnionTypeNode [types0; types1]) required indent =
       (s <- type2joi SUFFIX member false 0 ;;
        Ok (s ++ ".allow(null)" ++ requiredMarker required))) /\
  (forall members required indent,
     type2joi SUFFIX (UnionTypeNode [nullType; TypeLiteralNode members])
              required indent =
     (s <- propList2joi SUFFIX members 0 ;;
      Ok (s ++ ".allow(null)" ++ requiredMarker required))).
Proof.
  assert (A : forall elementType required indent,
     type2joi SUFFIX (ArrayTypeNode elementType) required indent =
     (s <- type2joi SUFFIX elementType false 0 ;;
      Ok ("Joi.array().items(" ++ s ++ ")" ++ requiredMarker required))).
  { intros. rewrite type2joi_array. unfold array2joi, array2joi_body.
    rewrite bind_assoc.
    destruct (type2joi SUFFIX elementType false 0); simpl; [|reflexivity].
    now rewrite !append_assoc. }
  assert (L : forall members (k : string -> string),
     (s <- type2joi SUFFIX (TypeLiteralNode members) false 0 ;; Ok (k s)) =
     (s <- propList2joi SUFFIX members 0 ;; Ok (k s))).
  { intros. rewrite type2joi_object_literal, bind_assoc.
    destruct (propList2joi SUFFIX members 0); simpl; [|reflexivity].
    now rewrite append_empty_r. }
  assert (N : forall T required indent,
     type2joi SUFFIX (UnionTypeNode [nullType; T]) required indent =
     (s <- type2joi SUFFIX T false 0 ;;
      Ok (s ++ ".allow(null)" ++ requiredMarker required))).
  { intros. apply type2joi_nullable_member. left. split; reflexivity. }
  assert (M : forall T required indent,
     type2joi SUFFIX (UnionTypeNode [T; nullType]) required indent =
     (s <- type2joi SUFFIX T false 0 ;;
      Ok (s ++ ".allow(null)" ++ requiredMarker required))).
  { intros. destruct (isNullType T) eqn:E.
    - apply isNullType_inv in E. subst T. apply N.
    - apply type2joi_nullable_member. right. repeat split; assumption. }
  split; [exact A|].
  split; [intros; now apply type2joi_nullable|].
  split; [intros; rewrite A; apply (L members (fun s => _))|].
  split; [intros; rewrite M; apply (L members (fun s => _))|].
  split; [exact N|]. split; [exact M|]. split.
  - intros types0 types1 required indent Hor Hand.
    destruct (isNullType types0) eqn:E0.
    + simpl in Hand. exists types1. split; [simpl; auto|].
      split; [exact Hand|].
      apply type2joi_nullable_member. left. split; [exact E0|reflexivity].
    + simpl in Hor. exists types0. split; [simpl; auto|].
      split; [exact E0|].
      apply type2joi_nullable_member. right. repeat split; assumption.
  - intros. rewrite N. apply (L members (fun s => _)).
Qed.

(** [null | string[]] as a required property type: the array, not the
    null member, is what is rendered. *)
Lemma element_rendered_not_required_at_indent_0_witness :
  isNullType nullType || isNullType (ArrayTypeNode stringType) = true /\
  isNullType nullType && isNullType (ArrayTypeNode stringType) = false /\
  type2joi "Schema"
    (UnionTypeNode [nullType; ArrayTypeNode stringType]) true 6 =
    Ok "Joi.array().items(Joi.string()).allow(null).required()" /\
  exists member,
    In member [nullType; ArrayTypeNode stringType] /\
    isNullType member = false /\
    type2joi "Schema"
      (UnionTypeNode [nullType; ArrayTypeNode stringType]) true 6 =
    (s <- type2joi "Schema" member false 0 ;;
     Ok (s ++ ".allow(null)" ++ requiredMarker true)).
Proof.
  split; [reflexivity|]. split; [reflexivity|]. split.
  - exact (eq_trans
             (proj1 (proj2 (proj2 (proj2 (proj2
                (element_rendered_not_required_at_indent_0 "Schema")))))
                (ArrayTypeNode stringType) true 6)
             eq_refl).
  - exact (proj1 (proj2 (proj2 (proj2 (proj2 (proj2 (proj2
             (element_rendered_not_required_at_indent_0 "Schema")))))))
             nullType (ArrayTypeNode stringType) true 6 eq_refl eq_refl).
Defined.

(** [{ a: { b: string }[] }] against [{ a: { b: string } }]: inside the
    array the inner object starts again from column 0. *)
Example object_in_array_layout :
  type2joi EmptyString
    (TypeLiteralNode
       [property "a"
          (ArrayTypeNode (TypeLiteralNode [property "b" stringType]))])
    false 0
  = Ok ("Joi.object({" ++ LF ++
        "  a: Joi.array().items(Joi.object({" ++ LF ++
        "  b: Joi.string().required()" ++ LF ++
        "})).required()" ++ LF ++
        "})") /\
  type2joi EmptyString
    (TypeLiteralNode
       [property "a" (TypeLiteralNode [property "b" stringType])])
    false 0
  = Ok ("Joi.object({" ++ LF ++
        "  a: Joi.object({" ++ LF ++
        "    b: Joi.string().required()" ++ LF ++
        "  }).required()" ++ LF ++
        "})").
Proof. split; reflexivity. Qed.


(** ** Primitive keywords and the dispatch of [type2joi] *)

Lemma type2joi_outside_dispatch SUFFIX (tp : TypeNode) required indent :
  inDispatchTable (kind tp) = false ->
  type2joi SUFFIX tp required indent = Throw (CannotConvertType tp).
Proof.
  destruct tp as [k| | | | | |]; simpl; try discriminate; try reflexivity.
  destruct k; simpl; try discriminate; reflexivity.
Qed.

(** C7 fails on the program for the keyword [this].  The [switch] of
    [type2joi] lists [ts.SyntaxKind.ThisKeyword], which would render as
    [Joi.this()], but the node of the type [this] has the kind
    [ThisType]: it matches no case label and [type2joi] throws. *)
Theorem this_type_is_not_converted SUFFIX (required : bool) (indent : nat) :
  In ThisKeyword supportedKeywords /\
  kind thisType = OtherType ThisType /\
  inDispatchTable (kind thisType) = false /\
  type2joi SUFFIX thisType required indent =
    Throw (CannotConvertType thisType) /\
  type2joi SUFFIX (KeywordTypeNode ThisKeyword) required indent =
    Ok ("Joi.this()" ++ requiredMarker required).
Proof.
  split; [simpl; tauto|]. repeat split.
Qed.

(** Each of the ten keywords the parser returns as type nodes renders as
    [Joi.<keyword>()], followed by [.required()] exactly when the flag is
    set; a type node whose kind is no [case] of the [switch], the type
    [this] among them, makes [type2joi] throw. *)
Theorem parsed_keywords_and_dispatch SUFFIX :
  (forall (K : KeywordKind) (indent : nat),
     In K parsedKeywords ->
     type2joi SUFFIX (KeywordTypeNode K) true indent =
       Ok ("Joi." ++ keywordText K ++ "()" ++ ".required()") /\
     type2joi SUFFIX (KeywordTypeNode K) false indent =
       Ok ("Joi." ++ keywordText K ++ "()")) /\
  (forall (tp : TypeNode) (required : bool) (indent : nat),
     inDispatchTable (kind tp) = false ->
     type2joi SUFFIX tp required indent = Throw (CannotConvertType tp)).
Proof.
  split.
  - intros K indent HK. simpl in HK.
    repeat (destruct HK as [<-|HK]; [split; reflexivity|]).
    contradiction.
  - intros. now apply type2joi_outside_dispatch.
Qed.

Lemma parsed_keywords_and_dispatch_witness :
  In NumberKeyword parsedKeywords /\
  type2joi EmptyString numberType true 2 = Ok "Joi.number().required()" /\
  type2joi EmptyString numberType false 2 = Ok "Joi.number()" /\
  inDispatchTable (kind (OtherTypeNode TupleType)) = false /\
  type2joi EmptyString (OtherTypeNode TupleType) true 0 =
    Throw (CannotConvertType (OtherTypeNode TupleType)).
Proof.
  assert (H : In NumberKeyword parsedKeywords) by (simpl; tauto).
  split; [exact H|].
  split; [exact (proj1 (proj1 (parsed_keywords_and_dispatch EmptyString)
                          NumberKeyword 2 H))|].
  split; [exact (proj2 (proj1 (parsed_keywords_and_dispatch EmptyString)
                          NumberKeyword 2 H))|].
  split; [reflexivity|].
  apply (proj2 (parsed_keywords_and_dispatch EmptyString)); reflexivity.
Defined.

(** ** Unions *)

Lemma all_Forall {T : Type} (predicate : T -> bool) (array : list T) :
  all predicate array = true <-> Forall (fun x => predicate x = true) array.
Proof.
  induction array as [|x rest IH]; simpl.
  - split; auto.
  - destruct (predicate x) eqn:E; simpl.
    + rewrite IH. split; intros H; [constructor; auto | now inversion H].
    + split; [discriminate|]. intros H; inversion H; congruence.
Qed.

Lemma all_false_not_Forall {T : Type} (predicate : T -> bool) (array : list T) :
  ~ Forall (fun x => predicate x = true) array -> all predicate array = false.
Proof.
  intros H. destruct (all predicate array) eqn:E; [|reflexivity].
  exfalso. apply H. now apply all_Forall.
Qed.

Lemma existsb_isNullKeyword_kinds (tp_types : list TypeNode) :
  existsb isNullKeyword (map kind tp_types) = true <->
  exists x, In x tp_types /\ isNullType x = true.
Proof.
  rewrite existsb_exists. split.
  - intros [k [Hin Hk]]. apply in_map_iff in Hin as [x [<- Hx]]. now exists x.
  - intros [x [Hin Hx]]. exists (kind x). split; [now apply in_map|exact Hx].
Qed.

(** A string-literal type is not the null keyword. *)
Lemma stringLiteral_not_null (x : TypeNode) :
  isStringLiteralType x = true -> isNullType x = false.
Proof. destruct x; try discriminate; reflexivity. Qed.

(** What [union2joi] does past its first [if]. *)
Lemma union2joi_not_nullable SUFFIX (tp_types : list TypeNode) :
  ~ nullableShape tp_types ->
  union2joi SUFFIX tp_types =
  if all isStringLiteralType tp_types
  then Ok ("Joi.string().valid([" ++ join ", " (values tp_types) ++ "])")
  else Throw (CannotConvertUnion (UnionTypeNode tp_types)).
Proof.
  intros H. unfold union2joi, union2joi_body.
  destruct tp_types as [|types0 [|types1 [|types2 rest]]]; try reflexivity.
  destruct (existsb isNullKeyword (map kind [types0; types1])) eqn:E;
    [|reflexivity].
  exfalso. apply H. split; [reflexivity|].
  now apply existsb_isNullKeyword_kinds.
Qed.

(** C2: a union that has neither shape A (two members, one of them null)
    nor shape B (string-literal types only) makes the renderer throw. *)
Theorem unsupported_union_shape_throws
    SUFFIX (tp_types : list TypeNode) (required : bool) (indent : nat) :
  ~ nullableShape tp_types ->
  ~ stringEnumShape tp_types ->
  type2joi SUFFIX (UnionTypeNode tp_types) required indent =
  Throw (CannotConvertUnion (UnionTypeNode tp_types)).
Proof.
  intros HA HB. rewrite type2joi_union, union2joi_not_nullable by exact HA.
  now rewrite (all_false_not_Forall _ _ HB).
Qed.

Lemma unsupported_union_shape_throws_witness :
  ~ nullableShape [numberType; booleanType] /\
  ~ stringEnumShape [numberType; booleanType] /\
  type2joi EmptyString (UnionTypeNode [numberType; booleanType]) true 0 =
  Throw (CannotConvertUnion (UnionTypeNode [numberType; booleanType])).
Proof.
  assert (HA : ~ nullableShape [numberType; booleanType]).
  { intros [_ [x [[<-|[<-|[]]] Hx]]]; discriminate. }
  assert (HB : ~ stringEnumShape [numberType; booleanType]).
  { intros H. inversion H; discriminate. }
  split; [exact HA|]. split; [exact HB|].
  exact (unsupported_union_shape_throws EmptyString
           [numberType; booleanType] true 0 HA HB).
Defined.

(** The other two unions the specification lists: three non-null members,
    and ["a" | null | "b"]. *)
Example unsupported_union_examples :
  type2joi EmptyString
    (UnionTypeNode [stringType; numberType; booleanType]) false 0 =
  Throw (CannotConvertUnion
           (UnionTypeNode [stringType; numberType; booleanType])) /\
  type2joi EmptyString
    (UnionTypeNode [stringLiteralType "a"; nullType; stringLiteralType "b"])
    false 0 =
  Throw (CannotConvertUnion
           (UnionTypeNode
              [stringLiteralType "a"; nullType; stringLiteralType "b"])).
Proof. split; reflexivity. Qed.

Lemma reorder_map {A B : Type} (f : A -> B) (p : list nat) (l : list A) :
  reorder p (map f l) = map f (reorder p l).
Proof.
  unfold reorder. induction p as [|i p IH]; simpl; [reflexivity|].
  rewrite map_app, IH, nth_error_map.
  destruct (nth_error l i); reflexivity.
Qed.

Lemma reorder_incl {A : Type} (p : list nat) (l : list A) (x : A) :
  In x (reorder p l) -> In x l.
Proof.
  unfold reorder. rewrite in_flat_map. intros [i [_ Hx]].
  destruct (nth_error l i) eqn:E; [|contradiction].
  destruct Hx as [<-|[]]. eapply nth_error_In; eassumption.
Qed.

Lemma values_map (tp_types : list TypeNode) :
  values tp_types =
  map (fun x => DQUOTE ++ literalText x ++ DQUOTE) tp_types.
Proof. unfold values. now rewrite map_map. Qed.

Lemma stringEnumShape_not_nullable (tp_types : list TypeNode) :
  stringEnumShape tp_types -> ~ nullableShape tp_types.
Proof.
  intros HB [_ [x [Hin Hx]]].
  unfold stringEnumShape in HB. rewrite Forall_forall in HB.
  apply HB, stringLiteral_not_null in Hin. congruence.
Qed.

Lemma type2joi_string_enum SUFFIX (tp_types : list TypeNode) required indent :
  stringEnumShape tp_types ->
  type2joi SUFFIX (UnionTypeNode tp_types) required indent =
  Ok ("Joi.string().valid([" ++ join ", " (values tp_types) ++ "])" ++
      requiredMarker required).
Proof.
  intros HB. rewrite type2joi_union, union2joi_not_nullable
    by now apply stringEnumShape_not_nullable.
  apply all_Forall in HB. rewrite HB. simpl. now rewrite !append_assoc.
Qed.

(** C6: a union of string-literal types renders as [Joi.string().valid]
    over the list of the literals' texts, each between double quotes, in
    the order of the members; the union with its members reordered renders
    with the value list reordered the same way. *)
Theorem string_literal_union_renders_enum
    SUFFIX (tp_types : list TypeNode) (required : bool) (indent : nat) :
  stringEnumShape tp_types ->
  type2joi SUFFIX (UnionTypeNode tp_types) required indent =
    Ok ("Joi.string().valid([" ++ join ", " (values tp_types) ++ "])" ++
        requiredMarker required) /\
  values tp_types =
    map (fun x => DQUOTE ++ literalText x ++ DQUOTE) tp_types /\
  (forall p : list nat,
     type2joi SUFFIX (UnionTypeNode (reorder p tp_types)) required indent =
       Ok ("Joi.string().valid([" ++
           join ", " (reorder p (values tp_types)) ++ "])" ++
           requiredMarker required)) /\
  (forall tp_types' : list TypeNode,
     Permutation tp_types tp_types' ->
     Permutation (values tp_types) (values tp_types')).
Proof.
  intros HB. split; [now apply type2joi_string_enum|].
  split; [apply values_map|]. split.
  - intros p. rewrite type2joi_string_enum.
    + unfold values. now rewrite !reorder_map.
    + unfold stringEnumShape in *. rewrite Forall_forall in *.
      intros x Hx. eapply HB, reorder_incl, Hx.
  - intros tp_types' HP. unfold values. now do 2 apply Permutation_map.
Qed.

Lemma string_literal_union_renders_enum_witness :
  stringEnumShape
    [stringLiteralType "a"; stringLiteralType "b"; stringLiteralType "c"] /\
  type2joi EmptyString
    (UnionTypeNode
       [stringLiteralType "a"; stringLiteralType "b"; stringLiteralType "c"])
    false 0 =
  Ok ("Joi.string().valid([" ++
      DQUOTE ++ "a" ++ DQUOTE ++ ", " ++
      DQUOTE ++ "b" ++ DQUOTE ++ ", " ++
      DQUOTE ++ "c" ++ DQUOTE ++ "])") /\
  type2joi EmptyString
    (UnionTypeNode
       [stringLiteralType "c"; stringLiteralType "a"; stringLiteralType "b"])
    false 0 =
  Ok ("Joi.string().valid([" ++
      DQUOTE ++ "c" ++ DQUOTE ++ ", " ++
      DQUOTE ++ "a" ++ DQUOTE ++ ", " ++
      DQUOTE ++ "b" ++ DQUOTE ++ "])").
Proof.
  assert (HB : stringEnumShape
    [stringLiteralType "a"; stringLiteralType "b"; stringLiteralType "c"]).
  { repeat constructor. }
  split; [exact HB|]. split.
  - exact (proj1 (string_literal_union_renders_enum EmptyString _ false 0 HB)).
  - exact (proj1 (proj2 (proj2
      (string_literal_union_renders_enum EmptyString _ false 0 HB)))
      [2; 0; 1]).
Defined.

(** ** Property lists *)

(** Members that are no property signature, or whose name is no plain
    identifier, leave no trace in the rendered object. *)
Lemma propList2joi_filtered SUFFIX (members : list TypeElement) (indent : nat) :
  propList2joi SUFFIX members indent =
  propList2joi SUFFIX
    (filter hasIdentifierName (filter isPropertySignature members)) indent.
Proof.
  rewrite !propList2joi_pipeline. do 2 f_equal.
  set (l := filter hasIdentifierName (filter isPropertySignature members)).
  assert (H : forall x, In x l ->
            isPropertySignature x = true /\ hasIdentifierName x = true).
  { intros x Hx. unfold l in Hx.
    apply filter_In in Hx as [Hx H2]. apply filter_In in Hx as [_ H1]. auto. }
  clearbody l. induction l as [|x l IH]; simpl; [reflexivity|].
  destruct (H x (or_introl eq_refl)) as [-> H2]. simpl. rewrite H2.
  f_equal. apply IH. intros y Hy. apply H. now right.
Qed.

(** C3 fails on the program for a property with a plain name and no type
    annotation.  In [interface Foo { a; b: string }] the entry [a] passes
    both filters, [prop2joi] answers [null] for it, and [join] writes a
    [null] element as the empty string between separators: the body of
    the object schema starts with a line holding a lone comma, which the
    body rendered without [a] does not have. *)
Theorem untyped_property_leaves_separator :
  propList2joi EmptyString [untypedProperty "a"; property "b" stringType] 0
    = Ok ("Joi.object({" ++ LF ++
          "," ++ LF ++
          "  b: Joi.string().required()" ++ LF ++
          "})") /\
  propList2joi EmptyString [property "b" stringType] 0
    = Ok ("Joi.object({" ++ LF ++
          "  b: Joi.string().required()" ++ LF ++
          "})") /\
  propList2joi EmptyString [untypedProperty "a"; property "b" stringType] 0
    <> propList2joi EmptyString [property "b" stringType] 0.
Proof.
  repeat split; try reflexivity. vm_compute. discriminate.
Qed.

(** ** Declarations *)

(** C5: for an interface [Foo] whose members render, the binding is named
    [Foo] followed by the suffix, the guard is named [isFoo] followed by
    the suffix, the guard asserts [T.Foo] without the suffix, and its body
    validates against the suffixed binding. *)
Theorem interface_binding_and_guard_names
    (S Foo : string) (members : list TypeElement) (properties : string) :
  propList2joi S members 0 = Ok properties ->
  stmt2joi S (InterfaceDeclaration Foo members) =
  Ok (Some
        ("export const " ++ (Foo ++ S) ++ " = " ++ properties ++ LF ++
         makeTypeGuard ("is" ++ (Foo ++ S)) Foo (Foo ++ S))) /\
  makeTypeGuard ("is" ++ (Foo ++ S)) Foo (Foo ++ S) =
    "export function " ++ ("is" ++ (Foo ++ S)) ++
      "(obj: any): obj is T." ++ Foo ++ " {" ++ LF ++
    "  return " ++ (Foo ++ S) ++ ".validate(obj).error === null" ++ LF ++
    "}" ++ LF.
Proof.
  intros H. split; [|reflexivity]. simpl. now rewrite H.
Qed.

Lemma interface_binding_and_guard_names_witness :
  propList2joi "Schema" [property "a" stringType] 0 =
    Ok ("Joi.object({" ++ LF ++ "  a: Joi.string().required()" ++ LF ++ "})") /\
  stmt2joi "Schema" (InterfaceDeclaration "Foo" [property "a" stringType]) =
  Ok (Some
        ("export const FooSchema = Joi.object({" ++ LF ++
         "  a: Joi.string().required()" ++ LF ++
         "})" ++ LF ++
         "export function isFooSchema(obj: any): obj is T.Foo {" ++ LF ++
         "  return FooSchema.validate(obj).error === null" ++ LF ++
         "}" ++ LF)).
Proof.
  split; [reflexivity|].
  exact (proj1 (interface_binding_and_guard_names "Schema" "Foo"
                  [property "a" stringType] _ eq_refl)).
Defined.

(** ** Whole modules *)

Lemma mapM_first_Throw {A B : Type} (f : A -> result B)
    (pre : list A) (x : A) (post : list A) (e : UnsupportedConstruct) :
  (forall d, In d pre -> exists o, f d = Ok o) ->
  f x = Throw e ->
  mapM f (pre ++ x :: post) = Throw e.
Proof.
  intros Hpre Hx. induction pre as [|d pre IH]; simpl.
  - now rewrite Hx.
  - destruct (Hpre d (or_introl eq_refl)) as [o ->]. simpl.
    rewrite IH; [reflexivity|]. intros d' Hd'. apply Hpre. now right.
Qed.

Lemma mapM_In_Throw {A B : Type} (f : A -> result B)
    (array : list A) (x : A) (e : UnsupportedConstruct) :
  In x array -> f x = Throw e ->
  exists x' e', In x' array /\ f x' = Throw e' /\ mapM f array = Throw e'.
Proof.
  induction array as [|d rest IH]; simpl; [contradiction|].
  intros Hin Hx. destruct (f d) as [o|e0] eqn:Ed.
  - destruct Hin as [->|Hin]; [congruence|].
    destruct (IH Hin Hx) as [x' [e' [H1 [H2 H3]]]].
    exists x', e'. rewrite H3. auto.
  - exists d, e0. auto.
Qed.

(** An error of an array's element, or of the selected member of a
    nullable union, is the error of the enclosing type. *)
Lemma type2joi_Throw_in_array SUFFIX elementType e required indent :
  type2joi SUFFIX elementType false 0 = Throw e ->
  type2joi SUFFIX (ArrayTypeNode elementType) required indent = Throw e.
Proof.
  intros H. rewrite type2joi_array. unfold array2joi, array2joi_body.
  now rewrite H.
Qed.

Lemma type2joi_Throw_in_nullable SUFFIX types0 types1 e required indent :
  isNullType types0 || isNullType types1 = true ->
  type2joi SUFFIX (notnull types0 types1) false 0 = Throw e ->
  type2joi SUFFIX (UnionTypeNode [types0; types1]) required indent = Throw e.
Proof.
  intros Hn H. now rewrite type2joi_nullable, H.
Qed.

(** An error of a property's type is the error of the property list when
    the properties before it render. *)
Lemma propList2joi_Throw_in_property SUFFIX (pre : list TypeElement) name
    (questionToken : bool) type (post : list TypeElement) e (indent : nat) :
  (forall d, In d pre -> exists o, prop2joi SUFFIX d (indent + 2) = Ok o) ->
  type2joi SUFFIX type (if questionToken then false else true) (indent + 2)
    = Throw e ->
  propList2joi SUFFIX
    (pre ++ PropertySignature (PIdentifier name) questionToken (Some type)
         :: post) indent = Throw e.
Proof.
  intros Hpre H. unfold propList2joi, propList2joi_body.
  fold (prop2joi SUFFIX).
  assert (E : filterMapM
            (fun x => isPropertySignature x && hasIdentifierName x)
            (fun x => prop2joi SUFFIX x (indent + 2))
            (pre ++ PropertySignature (PIdentifier name) questionToken
                      (Some type) :: post) = Throw e).
  { induction pre as [|d pre IH]; simpl.
    - now rewrite H.
    - destruct (Hpre d (or_introl eq_refl)) as [o Ho].
      rewrite Ho, IH; simpl.
      + now destruct (isPropertySignature d && hasIdentifierName d).
      + intros d' Hd'. apply Hpre. now right. }
  change (fun x => prop2joi_body (type2joi SUFFIX) x (indent + 2))
    with (fun x => prop2joi SUFFIX x (indent + 2)).
  now rewrite E.
Qed.

Lemma type2joi_Throw_in_object_literal SUFFIX members e required indent :
  propList2joi SUFFIX members indent = Throw e ->
  type2joi SUFFIX (TypeLiteralNode members) required indent = Throw e.
Proof. intros H. now rewrite type2joi_object_literal, H. Qed.

(** An error raised anywhere the renderer reaches is the error of the
    whole type. *)
Lemma raisedWithin_Throw SUFFIX e tp indent :
  raisedWithin SUFFIX e tp indent ->
  forall required, type2joi SUFFIX tp required indent = Throw e.
Proof.
  induction 1 as [tp indent Hk|tp_types indent HA HB|left right indent
                 |e elementType indent _ IH
                 |e types0 types1 member indent Hm _ IH
                 |e pre name questionToken type post indent Hpre _ IH];
    intros required.
  - now apply type2joi_outside_dispatch.
  - rewrite type2joi_union, union2joi_not_nullable by exact HA.
    now rewrite (all_false_not_Forall _ _ HB).
  - reflexivity.
  - apply type2joi_Throw_in_array, IH.
  - rewrite (type2joi_nullable_member _ _ _ _ _ _ Hm). now rewrite IH.
  - apply type2joi_Throw_in_object_literal.
    apply propList2joi_Throw_in_property; [exact Hpre | apply IH].
Qed.

(** C4: when compiling a declaration throws, [ts2joi] throws and returns
    no text, whatever the other declarations are.  The error is the one of
    the first declaration that throws.  It reaches the declaration
    unchanged from wherever it was raised: a type alias throws the error
    of its type, an interface the error of its property list, an array
    the error of its element, a nullable union the error of its member,
    an object literal the error of its property list, and a property
    list the error of the first property type that throws.  Hence an
    error raised at any depth of a declaration's type ([raisedWithin])
    is the error of [type2joi] on that type and, when the declarations
    before it compile, the error of [ts2joi]. *)
Theorem unsupported_construct_aborts_module
    (createSourceFile : string -> string -> SourceFile)
    (txt : string) (options : Options) :
  let SUFFIX := opts_suffix options in
  let stmts := statements (createSourceFile (opts_input options) txt) in
  (forall pre node post e,
     stmts = (pre ++ node :: post)%list ->
     (forall d, In d pre -> exists o, stmt2joi SUFFIX d = Ok o) ->
     stmt2joi SUFFIX node = Throw e ->
     ts2joi createSourceFile txt options = Throw e) /\
  (forall node e,
     In node stmts ->
     stmt2joi SUFFIX node = Throw e ->
     (exists node' e',
        In node' stmts /\ stmt2joi SUFFIX node' = Throw e' /\
        ts2joi createSourceFile txt options = Throw e') /\
     (forall out, ts2joi createSourceFile txt options <> Ok out)) /\
  (forall name type e,
     type2joi SUFFIX type false 0 = Throw e ->
     stmt2joi SUFFIX (TypeAliasDeclaration name type) = Throw e) /\
  (forall name members e,
     propList2joi SUFFIX members 0 = Throw e ->
     stmt2joi SUFFIX (InterfaceDeclaration name members) = Throw e) /\
  (forall elementType e required indent,
     type2joi SUFFIX elementType false 0 = Throw e ->
     type2joi SUFFIX (ArrayTypeNode elementType) required indent = Throw e) /\
  (forall types0 types1 e required indent,
     isNullType types0 || isNullType types1 = true ->
     type2joi SUFFIX (notnull types0 types1) false 0 = Throw e ->
     type2joi SUFFIX (UnionTypeNode [types0; types1]) required indent
       = Throw e) /\
  (forall (pre : list TypeElement) name (questionToken : bool) type
          (post : list TypeElement) e (indent : nat),
     (forall d, In d pre ->
                exists o, prop2joi SUFFIX d (indent + 2) = Ok o) ->
     type2joi SUFFIX type (if questionToken then false else true)
              (indent + 2) = Throw e ->
     propList2joi SUFFIX
       (pre ++ PropertySignature (PIdentifier name) questionToken (Some type)
            :: post) indent = Throw e) /\
  (forall members e required indent,
     propList2joi SUFFIX members indent = Throw e ->
     type2joi SUFFIX (TypeLiteralNode members) required indent = Throw e) /\
  (forall T e required indent,
     type2joi SUFFIX T false 0 = Throw e ->
     type2joi SUFFIX (UnionTypeNode [T; nullType]) required indent = Throw e /\
     type2joi SUFFIX (UnionTypeNode [nullType; T]) required indent = Throw e) /\
  (forall e tp required indent,
     raisedWithin SUFFIX e tp indent ->
     type2joi SUFFIX tp required indent = Throw e) /\
  (forall pre name type post e,
     stmts = (pre ++ TypeAliasDeclaration name type :: post)%list ->
     (forall d, In d pre -> exists o, stmt2joi SUFFIX d = Ok o) ->
     raisedWithin SUFFIX e type 0 ->
     ts2joi createSourceFile txt options = Throw e) /\
  (forall pre name members post e,
     stmts = (pre ++ InterfaceDeclaration name members :: post)%list ->
     (forall d, In d pre -> exists o, stmt2joi SUFFIX d = Ok o) ->
     raisedWithin SUFFIX e (TypeLiteralNode members) 0 ->
     ts2joi createSourceFile txt options = Throw e).
Proof.
  intros SUFFIX stmts.
  assert (First : forall pre node post e,
     stmts = (pre ++ node :: post)%list ->
     (forall d, In d pre -> exists o, stmt2joi SUFFIX d = Ok o) ->
     stmt2joi SUFFIX node = Throw e ->
     ts2joi createSourceFile txt options = Throw e).
  { intros pre node post e Hs Hpre Hn. unfold ts2joi.
    fold SUFFIX. fold stmts. rewrite Hs.
    now rewrite (mapM_first_Throw _ _ _ _ _ Hpre Hn). }
  split; [exact First|]. split.
  { intros node e Hin Hn.
    destruct (mapM_In_Throw (stmt2joi SUFFIX) stmts node e Hin Hn)
      as [node' [e' [H1 [H2 H3]]]].
    assert (E : ts2joi createSourceFile txt options = Throw e').
    { unfold ts2joi. fold SUFFIX. fold stmts. now rewrite H3. }
    split.
    + exists node', e'. auto.
    + intros out. rewrite E. discriminate. }
  split; [intros ? ? e H; simpl; now rewrite H|].
  split; [intros ? ? e H; simpl; now rewrite H|].
  split; [intros; now apply type2joi_Throw_in_array|].
  split; [intros; now apply type2joi_Throw_in_nullable|].
  split; [intros; now apply propList2joi_Throw_in_property|].
  split; [intros; now apply type2joi_Throw_in_object_literal|].
  split.
  { intros T e required indent H. split.
    - destruct (isNullType T) eqn:E.
      + apply isNullType_inv in E. subst T.
        rewrite (type2joi_nullable_member _ nullType nullType nullType)
          by (left; split; reflexivity).
        now rewrite H.
      + rewrite (type2joi_nullable_member _ T nullType T)
          by (right; repeat split; assumption).
        now rewrite H.
    - rewrite (type2joi_nullable_member _ nullType T T)
        by (left; split; reflexivity).
      now rewrite H. }
  split; [intros e tp required indent H; now apply raisedWithin_Throw|].
  split.
  - intros pre name type post e Hs Hpre H.
    apply (First pre _ post e Hs Hpre). simpl.
    now rewrite (raisedWithin_Throw _ _ _ _ H false).
  - intros pre name members post e Hs Hpre H.
    apply (First pre _ post e Hs Hpre). simpl.
    pose proof (raisedWithin_Throw _ _ _ _ H false) as E.
    rewrite type2joi_object_literal in E.
    destruct (propList2joi SUFFIX members 0); [discriminate|].
    simpl in E. now rewrite E.
Qed.

(** On [goodThenBad] the reference [A.B], inside an object literal inside
    an array, throws: [ts2joi] throws its error and nothing is returned
    for [Good]. *)
Lemma unsupported_construct_aborts_module_witness :
  (exists o, stmt2joi EmptyString
               (InterfaceDeclaration "Good" [property "a" stringType])
             = Ok (Some o)) /\
  raisedWithin EmptyString (CannotConvertQualifiedName qualifiedReference)
    (ArrayTypeNode (TypeLiteralNode [property "a" qualifiedReference])) 0 /\
  ts2joi (parsesTo goodThenBad) "source text" noOptions =
  Throw (CannotConvertQualifiedName qualifiedReference).
Proof.
  assert (R : raisedWithin EmptyString
                (CannotConvertQualifiedName qualifiedReference)
                (ArrayTypeNode
                   (TypeLiteralNode [property "a" qualifiedReference])) 0).
  { apply raised_in_array.
    apply (raised_in_object_literal EmptyString _ []
             {| escapedText := "a" |} false qualifiedReference [] 0).
    - intros d [].
    - apply raised_by_reference2joi. }
  split; [eexists; reflexivity|]. split; [exact R|].
  refine (proj1 (proj2 (proj2 (proj2 (proj2 (proj2 (proj2 (proj2 (proj2
            (proj2 (proj2 (unsupported_construct_aborts_module
                      (parsesTo goodThenBad) "source text"
                      noOptions)))))))))))
            [InterfaceDeclaration "Good" [property "a" stringType]]
            "Bad" _ [] _ eq_refl _ R).
  intros d [<-|[]]. eexists; reflexivity.
Defined.

Lemma mapM_skip {A C : Type} (f : A -> result (option string))
    (keep : A -> bool) (g : list string -> C) (array : list A) :
  (forall x, keep x = false -> f x = Ok None) ->
  (ys <- mapM f array ;; Ok (g (filterNotNull ys))) =
  (ys <- mapM f (filter keep array) ;; Ok (g (filterNotNull ys))).
Proof.
  intros Hskip. revert g.
  induction array as [|x rest IH]; intros g; simpl; [reflexivity|].
  destruct (keep x) eqn:K; simpl.
  - rewrite !bind_assoc. destruct (f x) as [[s|]|e]; simpl;
      [| |reflexivity]; rewrite !bind_assoc; simpl.
    + exact (IH (fun zs => g (s :: zs))).
    + exact (IH g).
  - rewrite (Hskip x K). simpl. rewrite bind_assoc. simpl. exact (IH g).
Qed.

(** C8: a statement that is neither an interface nor a type alias
    compiles to [null], and [ts2joi] returns (or throws) exactly what it
    does on the module with these statements erased. *)
Theorem other_declarations_are_skipped :
  (forall SUFFIX node,
     isInterfaceDeclaration node = false ->
     isTypeAliasDeclaration node = false ->
     stmt2joi SUFFIX node = Ok None) /\
  (forall createSourceFile txt options,
     ts2joi createSourceFile txt options =
     ts2joi (withoutOtherStatements createSourceFile) txt options).
Proof.
  assert (H : forall SUFFIX node,
            isSupportedDeclaration node = false ->
            stmt2joi SUFFIX node = Ok None).
  { intros SUFFIX [| |k]; try discriminate; reflexivity. }
  split.
  - intros SUFFIX node H1 H2. apply H.
    unfold isSupportedDeclaration. now rewrite H1, H2.
  - intros createSourceFile txt options.
    unfold ts2joi, withoutOtherStatements. cbn [statements].
    apply (mapM_skip (stmt2joi (opts_suffix options)) isSupportedDeclaration
             (fun ys => _ ++ join (LF ++ LF) ys)).
    apply H.
Qed.

Lemma other_declarations_are_skipped_witness :
  isInterfaceDeclaration (OtherStatement ClassDeclaration) = false /\
  isTypeAliasDeclaration (OtherStatement ClassDeclaration) = false /\
  stmt2joi "Schema" (OtherStatement ClassDeclaration) = Ok None /\
  ts2joi (parsesTo [OtherStatement ClassDeclaration;
                    OtherStatement FunctionDeclaration;
                    OtherStatement VariableStatement])
         "source text" noOptions =
  Ok (importLine "foo").
Proof.
  split; [reflexivity|]. split; [reflexivity|]. split.
  - exact (proj1 other_declarations_are_skipped "Schema"
             (OtherStatement ClassDeclaration) eq_refl eq_refl).
  - rewrite (proj2 other_declarations_are_skipped). reflexivity.
Defined.

(** ** Further properties of the renderer *)

(** Induction over type nodes that reaches the members of unions and the
    types of the members of object literals. *)
Lemma TypeNode_deep_ind (P : TypeNode -> Prop) :
  (forall k, P (KeywordTypeNode k)) ->
  (forall tp_types, Forall P tp_types -> P (UnionTypeNode tp_types)) ->
  (forall elementType, P elementType -> P (ArrayTypeNode elementType)) ->
  (forall members,
     Forall (fun member =>
               forall name questionToken type,
                 member = PropertySignature name questionToken (Some type) ->
                 P type) members ->
     P (TypeLiteralNode members)) ->
  (forall typeName, P (TypeReferenceNode typeName)) ->
  (forall literal, P (LiteralTypeNode literal)) ->
  (forall k, P (OtherTypeNode k)) ->
  forall tp, P tp.
Proof.
  intros Hk Hu Ha Hl Hr Hlit Ho.
  fix IH 1. intros [k|tp_types|elementType|members|typeName|literal|k].
  - apply Hk.
  - apply Hu. induction tp_types as [|x rest IHrest]; constructor.
    + apply IH.
    + exact IHrest.
  - apply Ha, IH.
  - apply Hl. induction members as [|member rest IHrest]; constructor.
    + destruct member as [name0 questionToken0 [type0|]|k0];
        intros name questionToken type E; try discriminate.
      injection E as _ _ <-. apply IH.
    + exact IHrest.
  - apply Hr.
  - apply Hlit.
  - apply Ho.
Qed.

Lemma errorOf_bind_Ok {A B : Type} (m : result A) (f : A -> B) :
  errorOf (x <- m ;; Ok (f x)) = errorOf m.
Proof. destruct m; reflexivity. Qed.

Lemma errorOf_None {A : Type} (m : result A) :
  errorOf m = None <-> exists a, m = Ok a.
Proof.
  destruct m as [a|e]; simpl; split; intros H;
    try discriminate; try reflexivity.
  - now exists a.
  - destruct H; discriminate.
Qed.

(** [type2joi] with any flag is [type2joi] with the flag unset, followed
    by the marker of the flag. *)
Lemma type2joi_marker SUFFIX (tp : TypeNode) (required : bool) (indent : nat) :
  type2joi SUFFIX tp required indent =
  (s <- type2joi SUFFIX tp false indent ;; Ok (s ++ requiredMarker required)).
Proof.
  destruct tp as [k|tp_types|elementType|members|typeName|literal|k];
    try reflexivity.
  - destruct k; simpl; try reflexivity;
      now rewrite !append_assoc, append_empty_r.
  - rewrite !type2joi_union, bind_assoc.
    destruct (union2joi SUFFIX tp_types); simpl; [|reflexivity].
    now rewrite append_empty_r.
  - rewrite !type2joi_array, bind_assoc.
    destruct (array2joi SUFFIX elementType); simpl; [|reflexivity].
    now rewrite append_empty_r.
  - rewrite !type2joi_literal, bind_assoc.
    destruct (literal2joi SUFFIX members indent); simpl; [|reflexivity].
    now rewrite append_empty_r.
  - rewrite !type2joi_reference, bind_assoc.
    destruct (reference2joi SUFFIX (TypeReferenceNode typeName)); simpl;
      [|reflexivity].
    now rewrite append_empty_r.
Qed.

Lemma errorOf_filterMapM_cons {A B : Type} (p : A -> bool) (f : A -> result B)
    (x : A) (rest : list A) :
  errorOf (filterMapM p f (x :: rest)) =
  if p x then
    match errorOf (f x) with
    | Some e => Some e
    | None => errorOf (filterMapM p f rest)
    end
  else errorOf (filterMapM p f rest).
Proof.
  simpl. destruct (p x); [|reflexivity].
  destruct (f x) as [y|e]; simpl; [|reflexivity].
  apply errorOf_bind_Ok.
Qed.

Lemma errorOf_filterMapM_ext {A B : Type} (p : A -> bool)
    (f g : A -> result B) (array : list A) :
  Forall (fun x => errorOf (f x) = errorOf (g x)) array ->
  errorOf (filterMapM p f array) = errorOf (filterMapM p g array).
Proof.
  induction 1 as [|x rest Hx _ IH]; [reflexivity|].
  now rewrite !errorOf_filterMapM_cons, Hx, IH.
Qed.

Lemma errorOf_prop2joi SUFFIX (prop : TypeElement) (indent : nat) :
  errorOf (prop2joi SUFFIX prop indent) =
  match prop with
  | PropertySignature (PIdentifier _) questionToken (Some type) =>
      errorOf (type2joi SUFFIX type (if questionToken then false else true)
                        indent)
  | _ => None
  end.
Proof.
  destruct prop as [[id| | |] questionToken [type|]|k]; try reflexivity.
  unfold prop2joi, prop2joi_body. apply errorOf_bind_Ok.
Qed.

Lemma errorOf_propList2joi SUFFIX (members : list TypeElement) (indent : nat) :
  errorOf (propList2joi SUFFIX members indent) =
  errorOf (filterMapM (fun x => isPropertySignature x && hasIdentifierName x)
                      (fun x => prop2joi SUFFIX x (indent + 2)) members).
Proof.
  unfold propList2joi, propList2joi_body. apply errorOf_bind_Ok.
Qed.

Lemma errorOf_union2joi SUFFIX (tp_types : list TypeNode) :
  errorOf (union2joi SUFFIX tp_types) =
  match tp_types with
  | [types0; types1] =>
      if isNullType types0 || isNullType types1
      then errorOf (type2joi SUFFIX (notnull types0 types1) false 0)
      else if all isStringLiteralType tp_types then None
           else Some (CannotConvertUnion (UnionTypeNode tp_types))
  | _ => if all isStringLiteralType tp_types then None
         else Some (CannotConvertUnion (UnionTypeNode tp_types))
  end.
Proof.
  destruct tp_types as [|types0 [|types1 [|types2 rest]]];
    try (unfold union2joi, union2joi_body;
         destruct (all isStringLiteralType _); reflexivity).
  destruct (isNullType types0 || isNullType types1) eqn:E.
  - rewrite (union2joi_nullable _ _ _ E). apply errorOf_bind_Ok.
  - unfold union2joi, union2joi_body. cbn [map existsb].
    unfold isNullType in E. rewrite orb_false_r, E.
    destruct (all isStringLiteralType _); reflexivity.
Qed.

(** Whether [type2joi] throws, and what, is decided by the type node
    alone: the suffix, the required flag and the indent play no part. *)
Theorem conversion_error_depends_on_type_only (tp : TypeNode) :
  forall SUFFIX SUFFIX' required required' indent indent',
    errorOf (type2joi SUFFIX tp required indent) =
    errorOf (type2joi SUFFIX' tp required' indent').
Proof.
  induction tp as [k|tp_types IH|elementType IH|members IH|typeName|literal|k]
    using TypeNode_deep_ind; intros.
  - destruct k; reflexivity.
  - rewrite !type2joi_union, !errorOf_bind_Ok, !errorOf_union2joi.
    destruct tp_types as [|types0 [|types1 [|types2 rest]]]; try reflexivity.
    destruct (isNullType types0 || isNullType types1); [|reflexivity].
    inversion IH as [|? ? H0 IH']; subst. inversion IH' as [|? ? H1 _]; subst.
    unfold notnull. destruct (isNullKeyword (kind types0)); auto.
  - rewrite !type2joi_array. unfold array2joi, array2joi_body.
    rewrite !bind_assoc. simpl. rewrite !errorOf_bind_Ok. apply IH.
  - rewrite !type2joi_literal, !errorOf_bind_Ok.
    unfold literal2joi, literal2joi_body.
    fold (propList2joi SUFFIX members indent).
    fold (propList2joi SUFFIX' members indent').
    rewrite !errorOf_propList2joi. apply errorOf_filterMapM_ext.
    induction IH as [|member rest Hm _ IHrest]; constructor; [|exact IHrest].
    rewrite !errorOf_prop2joi.
    destruct member as [[id| | |] questionToken [type|]|k0]; try reflexivity.
    eapply Hm. reflexivity.
  - destruct typeName; reflexivity.
  - reflexivity.
  - reflexivity.
Qed.

Lemma errorOf_type2joi_supported (tp : TypeNode) :
  forall SUFFIX required indent,
    errorOf (type2joi SUFFIX tp required indent) = None <->
    supported tp = true.
Proof.
  induction tp as [k|tp_types IH|elementType IH|members IH|typeName|literal|k]
    using TypeNode_deep_ind; intros.
  - destruct k; simpl; split; intros H; try reflexivity; discriminate.
  - rewrite type2joi_union, errorOf_bind_Ok, errorOf_union2joi.
    assert (E : forall l : list TypeNode,
              (if all isStringLiteralType l then None
               else Some (CannotConvertUnion (UnionTypeNode l))) = None <->
              all isStringLiteralType l = true).
    { intros l. destruct (all isStringLiteralType l); split; intros H;
        try reflexivity; discriminate. }
    destruct tp_types as [|types0 [|types1 [|types2 rest]]]; try apply E.
    cbn [supported].
    destruct (isNullType types0 || isNullType types1); [|apply E].
    inversion IH as [|? ? H0 IH']; subst. inversion IH' as [|? ? H1 _]; subst.
    unfold notnull. destruct (isNullKeyword (kind types0)); auto.
  - rewrite type2joi_array. unfold array2joi, array2joi_body.
    rewrite bind_assoc. simpl. rewrite errorOf_bind_Ok. apply IH.
  - rewrite type2joi_literal, errorOf_bind_Ok.
    unfold literal2joi, literal2joi_body.
    fold (propList2joi SUFFIX members indent).
    rewrite errorOf_propList2joi. cbn [supported].
    induction IH as [|member rest Hm _ IHrest]; [split; reflexivity|].
    rewrite errorOf_filterMapM_cons, errorOf_prop2joi. cbn [forallb].
    destruct member as [[id| | |] questionToken [type|]|k0];
      cbn [isPropertySignature hasIdentifierName andb supportedMember];
      try exact IHrest.
    specialize (Hm _ _ _ eq_refl SUFFIX
                  (if questionToken then false else true) (indent + 2)).
    destruct (errorOf (type2joi SUFFIX type _ (indent + 2))) as [e|].
    + destruct (supported type); [|split; discriminate].
      destruct Hm as [_ Hm]. specialize (Hm eq_refl). discriminate.
    + destruct Hm as [Hm _]. rewrite (Hm eq_refl). exact IHrest.
  - destruct typeName; simpl; split; intros H; try reflexivity; discriminate.
  - simpl; split; discriminate.
  - simpl; split; discriminate.
Qed.

(** [type2joi] returns a text exactly on the types [supported]
    describes, whatever the suffix, flag and indent. *)
Theorem type2joi_returns_iff_supported
    SUFFIX (tp : TypeNode) (required : bool) (indent : nat) :
  (exists s, type2joi SUFFIX tp required indent = Ok s) <->
  supported tp = true.
Proof.
  rewrite <- errorOf_None. apply errorOf_type2joi_supported.
Qed.

(** With the flag set [type2joi] returns exactly the text it returns
    with the flag unset, followed by [.required()]; it throws with one
    when it throws with the other. *)
Theorem required_flag_only_appends_marker
    SUFFIX (tp : TypeNode) (indent : nat) (text : string) :
  type2joi SUFFIX tp true indent = Ok text <->
  exists s, type2joi SUFFIX tp false indent = Ok s /\
            text = s ++ ".required()".
Proof.
  rewrite (type2joi_marker SUFFIX tp true indent).
  destruct (type2joi SUFFIX tp false indent) as [s|e]; simpl; split.
  - intros H. exists s. split; [reflexivity|]. now inversion H.
  - intros [s' [H ->]]. now inversion H.
  - discriminate.
  - intros [s' [H _]]. discriminate.
Qed.



(** ** Further properties of property lists and declarations *)

Lemma mapM_Forall2 {A B : Type} (f : A -> result B) (array : list A)
    (ys : list B) :
  Forall2 (fun x y => f x = Ok y) array ys -> mapM f array = Ok ys.
Proof.
  induction 1 as [|x y rest ys' Hx _ IH]; simpl; [reflexivity|].
  now rewrite Hx, IH.
Qed.

Lemma joinNullable_Some (sep : string) (lines : list string) :
  joinNullable sep (map Some lines) = join sep lines.
Proof.
  unfold joinNullable. rewrite map_map. simpl. now rewrite map_id.
Qed.

Lemma Forall2_map_r {A B C : Type} (R : A -> C -> Prop) (g : B -> C)
    (l : list A) (l' : list B) :
  Forall2 (fun x y => R x (g y)) l l' -> Forall2 R l (map g l').
Proof. induction 1; simpl; constructor; auto. Qed.

(** When every kept member has a type that renders, the object schema
    lists the members' lines in their order, separated by a comma and a
    line feed, between [Joi.object({] and the closing brace at the
    caller's indent. *)
Theorem typed_properties_render_in_order
    SUFFIX (members : list TypeElement) (indent : nat) (lines : list string) :
  Forall2 (fun member line =>
             prop2joi SUFFIX member (indent + 2) = Ok (Some line))
          (keptMembers members) lines ->
  propList2joi SUFFIX members indent =
  Ok ("Joi.object({" ++ LF ++ join ("," ++ LF) lines ++ LF ++
      spaces indent ++ "})").
Proof.
  intros H. rewrite propList2joi_pipeline.
  fold (keptMembers members).
  rewrite (mapM_Forall2 _ _ (map Some lines)).
  - simpl. now rewrite joinNullable_Some.
  - now apply Forall2_map_r.
Qed.

Lemma typed_properties_render_in_order_witness :
  Forall2 (fun member line => prop2joi EmptyString member (2 + 2) = Ok (Some line))
          (keptMembers [property "a" stringType;
                        OtherTypeElement MethodSignature;
                        optionalProperty "b" numberType])
          ["    a: Joi.string().required()"; "    b: Joi.number()"] /\
  propList2joi EmptyString
    [property "a" stringType; OtherTypeElement MethodSignature;
     optionalProperty "b" numberType] 2 =
  Ok ("Joi.object({" ++ LF ++
      "    a: Joi.string().required()," ++ LF ++
      "    b: Joi.number()" ++ LF ++
      "  })").
Proof.
  assert (H : Forall2
    (fun member line => prop2joi EmptyString member (2 + 2) = Ok (Some line))
    (keptMembers [property "a" stringType;
                  OtherTypeElement MethodSignature;
                  optionalProperty "b" numberType])
    ["    a: Joi.string().required()"; "    b: Joi.number()"]).
  { repeat constructor. }
  split; [exact H|].
  exact (typed_properties_render_in_order EmptyString _ 2 _ H).
Defined.

(** A member list without any property signature of plain name, the
    empty list among them, renders as an object schema with an empty
    body; it never throws. *)
Theorem no_kept_member_renders_empty_object
    SUFFIX (members : list TypeElement) (indent : nat) :
  Forall (fun member =>
            isPropertySignature member && hasIdentifierName member = false)
         members ->
  propList2joi SUFFIX members indent =
  Ok ("Joi.object({" ++ LF ++ LF ++ spaces indent ++ "})").
Proof.
  intros H. unfold propList2joi, propList2joi_body.
  assert (E : filterMapM
            (fun x => isPropertySignature x && hasIdentifierName x)
            (fun x => prop2joi_body (type2joi SUFFIX) x (indent + 2))
            members = Ok []).
  { induction H as [|member rest Hm _ IH]; simpl; [reflexivity|].
    now rewrite Hm. }
  now rewrite E.
Qed.

Lemma no_kept_member_renders_empty_object_witness :
  Forall (fun member =>
            isPropertySignature member && hasIdentifierName member = false)
         [OtherTypeElement IndexSignature;
          PropertySignature (PStringLiteral "a-b") false (Some stringType)] /\
  propList2joi "S"
    [OtherTypeElement IndexSignature;
     PropertySignature (PStringLiteral "a-b") false (Some stringType)] 0 =
  Ok ("Joi.object({" ++ LF ++ LF ++ "})").
Proof.
  assert (H : Forall
    (fun member =>
       isPropertySignature member && hasIdentifierName member = false)
    [OtherTypeElement IndexSignature;
     PropertySignature (PStringLiteral "a-b") false (Some stringType)]).
  { repeat constructor. }
  split; [exact H|].
  exact (no_kept_member_renders_empty_object "S" _ 0 H).
Defined.

(** A type alias whose type renders compiles to the binding of the
    type rendered as non-required at indent 0, named after the alias with
    the suffix, followed by the guard [is<name><suffix>] that asserts the
    alias name without the suffix. *)
Theorem type_alias_binding_and_guard
    (SUFFIX identifier : string) (type : TypeNode) (typeStr : string) :
  type2joi SUFFIX type false 0 = Ok typeStr ->
  stmt2joi SUFFIX (TypeAliasDeclaration identifier type) =
  Ok (Some
        ("export const " ++ (identifier ++ SUFFIX) ++ " = " ++ typeStr ++ LF ++
         "export function " ++ ("is" ++ (identifier ++ SUFFIX)) ++
           "(obj: any): obj is T." ++ identifier ++ " {" ++ LF ++
         "  return " ++ (identifier ++ SUFFIX) ++
           ".validate(obj).error === null" ++ LF ++
         "}" ++ LF)).
Proof.
  intros H. simpl. now rewrite H.
Qed.

Lemma type_alias_binding_and_guard_witness :
  type2joi "Schema" (ArrayTypeNode stringType) false 0 =
    Ok "Joi.array().items(Joi.string())" /\
  stmt2joi "Schema" (TypeAliasDeclaration "Bar" (ArrayTypeNode stringType)) =
  Ok (Some
        ("export const BarSchema = Joi.array().items(Joi.string())" ++ LF ++
         "export function isBarSchema(obj: any): obj is T.Bar {" ++ LF ++
         "  return BarSchema.validate(obj).error === null" ++ LF ++
         "}" ++ LF)).
Proof.
  split; [reflexivity|].
  exact (type_alias_binding_and_guard "Schema" "Bar"
           (ArrayTypeNode stringType) _ eq_refl).
Defined.

(** [stmt2joi] answers [null] for the statements that are neither
    interfaces nor type aliases and for no other: an interface or a type
    alias compiles to a text or throws. *)
Theorem stmt2joi_null_iff_other_statement (SUFFIX : string) (node : Statement) :
  stmt2joi SUFFIX node = Ok None <-> isSupportedDeclaration node = false.
Proof.
  destruct node as [name members|name type|k]; simpl.
  - destruct (propList2joi SUFFIX members 0); simpl; split; discriminate.
  - destruct (type2joi SUFFIX type false 0); simpl; split; discriminate.
  - split; reflexivity.
Qed.

(** ** Further properties of whole modules *)

Lemma length_append (a b : string) :
  String.length (a ++ b) = String.length a + String.length b.
Proof. induction a as [|c a IH]; simpl; [reflexivity | now rewrite IH]. Qed.

Lemma substring_0_0 (s : string) : substring 0 0 s = EmptyString.
Proof. destruct s; reflexivity. Qed.

Lemma substring_prefix (a b : string) :
  substring 0 (String.length a) (a ++ b) = a.
Proof.
  induction a as [|c a IH]; simpl; [apply substring_0_0 | now rewrite IH].
Qed.

Lemma substring_all (s : string) : substring 0 (String.length s) s = s.
Proof. induction s as [|c s IH]; simpl; [reflexivity | now rewrite IH]. Qed.

Lemma substring_suffix (a b : string) :
  substring (String.length a) (String.length b) (a ++ b) = b.
Proof. induction a as [|c a IH]; simpl; [apply substring_all | exact IH]. Qed.

(** A string is its first [n] characters followed by the rest. *)
Lemma substring_split (s : string) :
  forall n, n <= String.length s ->
  s = substring 0 n s ++ substring n (String.length s - n) s.
Proof.
  induction s as [|c s IH]; intros n Hn.
  - destruct n; [reflexivity | inversion Hn].
  - destruct n as [|n].
    + cbn [substring append]. rewrite Nat.sub_0_r.
      change (String c s = substring 0 (String.length (String c s)) (String c s)).
      now rewrite substring_all.
    + simpl. f_equal. apply IH. simpl in Hn. now apply le_S_n.
Qed.

Lemma endsWith_true (s suffix : string) :
  endsWith s suffix = true ->
  s = substring 0 (String.length s - String.length suffix) s ++ suffix.
Proof.
  unfold endsWith. intros H. apply andb_true_iff in H as [Hlen Heq].
  apply Nat.leb_le in Hlen. apply String.eqb_eq in Heq.
  pose proof (substring_split s (String.length s - String.length suffix))
    as E.
  replace (String.length s - (String.length s - String.length suffix))
    with (String.length suffix) in E by lia.
  rewrite Heq in E. apply E. lia.
Qed.

Lemma endsWith_append (base suffix : string) :
  endsWith (base ++ suffix) suffix = true.
Proof.
  unfold endsWith. rewrite length_append. apply andb_true_iff. split.
  - apply Nat.leb_le. rewrite Nat.add_comm. apply Nat.le_add_r.
  - rewrite Nat.add_sub, substring_suffix. apply String.eqb_refl.
Qed.

(** The module path of the second import is the input label with a
    final [.ts] removed: [base.ts] gives [base], a label that ends in
    [.ts] is its path followed by [.ts], and any other label is kept as
    it is. *)
Theorem fname_strips_ts_extension :
  (forall base, fnameOf (base ++ ".ts") = base) /\
  (forall opts_input,
     endsWith opts_input ".ts" = true ->
     fnameOf opts_input ++ ".ts" = opts_input) /\
  (forall opts_input,
     endsWith opts_input ".ts" = false -> fnameOf opts_input = opts_input).
Proof.
  split; [|split].
  - intros base. unfold fnameOf. rewrite endsWith_append.
    unfold sliceDropLast. rewrite length_append. simpl String.length.
    rewrite Nat.add_sub. apply substring_prefix.
  - intros opts_input H. unfold fnameOf. rewrite H. unfold sliceDropLast.
    symmetry. exact (endsWith_true _ _ H).
  - intros opts_input H. unfold fnameOf. now rewrite H.
Qed.

Lemma fname_strips_ts_extension_witness :
  endsWith "src/types.ts" ".ts" = true /\
  fnameOf "src/types.ts" ++ ".ts" = "src/types.ts" /\
  endsWith "types.d.tsx" ".ts" = false /\
  fnameOf "types.d.tsx" = "types.d.tsx".
Proof.
  split; [reflexivity|]. split.
  - exact (proj1 (proj2 fname_strips_ts_extension) "src/types.ts" eq_refl).
  - split; [reflexivity|].
    exact (proj2 (proj2 fname_strips_ts_extension) "types.d.tsx" eq_refl).
Defined.

Lemma filterNotNull_Some (outs : list string) :
  filterNotNull (map Some outs) = outs.
Proof. induction outs as [|o outs IH]; simpl; [reflexivity | now rewrite IH]. Qed.

Lemma stmt2joi_other (SUFFIX : string) (node : Statement) :
  isSupportedDeclaration node = false -> stmt2joi SUFFIX node = Ok None.
Proof. destruct node; try discriminate; reflexivity. Qed.

Lemma ts2joi_eq (createSourceFile : string -> string -> SourceFile)
    (txt : string) (options : Options) :
  ts2joi createSourceFile txt options =
  (ifaces <- mapM (stmt2joi (opts_suffix options))
               (statements (createSourceFile (opts_input options) txt)) ;;
   Ok (importLine (fnameOf (opts_input options)) ++
       join (LF ++ LF) (filterNotNull ifaces))).
Proof. reflexivity. Qed.

(** When the interfaces and type aliases of a module compile, the
    module compiles to the header for the input label followed by their
    texts in file order, separated by one empty line; the other
    statements leave no trace. *)
Theorem module_text_is_header_and_declarations
    (createSourceFile : string -> string -> SourceFile)
    (txt : string) (options : Options) (outs : list string) :
  Forall2 (fun node out => stmt2joi (opts_suffix options) node = Ok (Some out))
          (filter isSupportedDeclaration
                  (statements (createSourceFile (opts_input options) txt)))
          outs ->
  ts2joi createSourceFile txt options =
  Ok (importLine (fnameOf (opts_input options)) ++ join (LF ++ LF) outs).
Proof.
  intros H. rewrite ts2joi_eq.
  rewrite (mapM_skip (stmt2joi (opts_suffix options)) isSupportedDeclaration
             (fun ys => importLine (fnameOf (opts_input options)) ++
                        join (LF ++ LF) ys)).
  - rewrite (mapM_Forall2 _ _ (map Some outs)).
    + simpl. now rewrite filterNotNull_Some.
    + now apply Forall2_map_r.
  - apply stmt2joi_other.
Qed.

Lemma module_text_is_header_and_declarations_witness :
  Forall2 (fun node out => stmt2joi "Schema" node = Ok (Some out))
    (filter isSupportedDeclaration
       [TypeAliasDeclaration "A" stringType;
        OtherStatement ClassDeclaration;
        TypeAliasDeclaration "B" numberType])
    ["export const ASchema = Joi.string()" ++ LF ++
       makeTypeGuard "isASchema" "A" "ASchema";
     "export const BSchema = Joi.number()" ++ LF ++
       makeTypeGuard "isBSchema" "B" "BSchema"] /\
  ts2joi (parsesTo [TypeAliasDeclaration "A" stringType;
                    OtherStatement ClassDeclaration;
                    TypeAliasDeclaration "B" numberType])
         "source text"
         {| input := Some "types.ts"; output := None;
            suffix := Some "Schema" |} =
  Ok (importLine "types" ++
      "export const ASchema = Joi.string()" ++ LF ++
      makeTypeGuard "isASchema" "A" "ASchema" ++
      LF ++ LF ++
      "export const BSchema = Joi.number()" ++ LF ++
      makeTypeGuard "isBSchema" "B" "BSchema").
Proof.
  assert (H : Forall2 (fun node out => stmt2joi "Schema" node = Ok (Some out))
    (filter isSupportedDeclaration
       [TypeAliasDeclaration "A" stringType;
        OtherStatement ClassDeclaration;
        TypeAliasDeclaration "B" numberType])
    ["export const ASchema = Joi.string()" ++ LF ++
       makeTypeGuard "isASchema" "A" "ASchema";
     "export const BSchema = Joi.number()" ++ LF ++
       makeTypeGuard "isBSchema" "B" "BSchema"]).
  { repeat constructor. }
  split; [exact H|].
  exact (module_text_is_header_and_declarations
           (parsesTo [TypeAliasDeclaration "A" stringType;
                      OtherStatement ClassDeclaration;
                      TypeAliasDeclaration "B" numberType])
           "source text"
           {| input := Some "types.ts"; output := None;
              suffix := Some "Schema" |} _ H).
Defined.

(** A module without interface and type alias, the empty module among
    them, compiles to the header alone. *)
Theorem module_without_declarations_is_header
    (createSourceFile : string -> string -> SourceFile)
    (txt : string) (options : Options) :
  Forall (fun node => isSupportedDeclaration node = false)
         (statements (createSourceFile (opts_input options) txt)) ->
  ts2joi createSourceFile txt options =
  Ok (importLine (fnameOf (opts_input options))).
Proof.
  intros H. rewrite ts2joi_eq.
  set (stmts := statements (createSourceFile (opts_input options) txt)) in *.
  assert (E : mapM (stmt2joi (opts_suffix options)) stmts =
              Ok (map (fun _ => None) stmts)).
  { induction H as [|node rest Hn _ IH]; simpl; [reflexivity|].
    now rewrite (stmt2joi_other _ _ Hn), IH. }
  rewrite E. simpl.
  replace (filterNotNull (map (fun _ => None) stmts)) with (@nil string).
  - simpl. now rewrite append_empty_r.
  - clear. induction stmts; simpl; auto.
Qed.

(** A module of a class and a function, compiled with a suffix. *)
Lemma module_without_declarations_is_header_witness :
  Forall (fun node => isSupportedDeclaration node = false)
         [OtherStatement ClassDeclaration;
          OtherStatement FunctionDeclaration] /\
  ts2joi (parsesTo [OtherStatement ClassDeclaration;
                    OtherStatement FunctionDeclaration])
         "class C {} function f() {}"
         {| input := Some "lib/api.ts"; output := None;
            suffix := Some "Schema" |} =
  Ok ("// Automatically generated by tsjoi" ++ LF ++
      "import Joi from 'joi'" ++ LF ++
      "import * as T from './lib/api'" ++ LF ++ LF).
Proof.
  assert (H : Forall (fun node => isSupportedDeclaration node = false)
                [OtherStatement ClassDeclaration;
                 OtherStatement FunctionDeclaration]).
  { repeat constructor. }
  split; [exact H|].
  exact (module_without_declarations_is_header
           (parsesTo [OtherStatement ClassDeclaration;
                      OtherStatement FunctionDeclaration])
           "class C {} function f() {}"
           {| input := Some "lib/api.ts"; output := None;
              suffix := Some "Schema" |} H).
Defined.

Lemma errorOf_mapM_None {A B : Type} (f : A -> result B) (array : list A) :
  errorOf (mapM f array) = None <->
  Forall (fun x => errorOf (f x) = None) array.
Proof.
  induction array as [|x rest IH]; simpl.
  - split; [constructor | reflexivity].
  - destruct (f x) as [y|e] eqn:E; simpl.
    + rewrite errorOf_bind_Ok, IH. split; intros H.
      * constructor; [now rewrite E | exact H].
      * now inversion H.
    + split; [discriminate|]. intros H; inversion H as [|? ? Hx _].
      rewrite E in Hx. discriminate.
Qed.

Lemma errorOf_stmt2joi (SUFFIX : string) (node : Statement) :
  errorOf (stmt2joi SUFFIX node) = None <-> compilable node = true.
Proof.
  destruct node as [name members|name type|k]; simpl.
  - rewrite errorOf_bind_Ok.
    rewrite <- (errorOf_type2joi_supported (TypeLiteralNode members)
                  SUFFIX false 0).
    rewrite type2joi_literal, errorOf_bind_Ok. reflexivity.
  - rewrite errorOf_bind_Ok. apply errorOf_type2joi_supported.
  - split; reflexivity.
Qed.

(** [ts2joi] returns a text exactly when every statement of the
    module is compilable: each type alias has a convertible type and each
    interface convertible members; else it throws. *)
Theorem ts2joi_returns_iff_all_compilable
    (createSourceFile : string -> string -> SourceFile)
    (txt : string) (options : Options) :
  (exists text, ts2joi createSourceFile txt options = Ok text) <->
  forallb compilable
    (statements (createSourceFile (opts_input options) txt)) = true.
Proof.
  rewrite <- errorOf_None, ts2joi_eq, errorOf_bind_Ok, errorOf_mapM_None.
  rewrite forallb_forall, Forall_forall.
  split; intros H node Hn; apply (errorOf_stmt2joi (opts_suffix options)), H, Hn.
Qed.

(** [all] holds exactly when the predicate holds of every element, in
    particular on the empty array, and fails exactly when some element
    fails the predicate. *)
Theorem all_iff_every_element {T : Type} (predicate : T -> bool)
    (array : list T) :
  (all predicate array = true <->
   forall x, In x array -> predicate x = true) /\
  (all predicate array = false <->
   exists x, In x array /\ predicate x = false).
Proof.
  induction array as [|x rest [IHt IHf]]; simpl.
  - split; split; try discriminate; try reflexivity.
    + intros _ x [].
    + intros [x [[] _]].
  - destruct (predicate x) eqn:E; simpl; split.
    + rewrite IHt. split.
      * intros H y [<-|Hy]; auto.
      * intros H y Hy. apply H. now right.
    + rewrite IHf. split.
      * intros [y [Hy Hp]]. exists y. auto.
      * intros [y [[<-|Hy] Hp]]; [congruence|]. now exists y.
    + split; [discriminate|]. intros H.
      rewrite (H x (or_introl eq_refl)) in E. discriminate.
    + split; [|reflexivity]. intros _. exists x. auto.
Qed.

(** ** The command line *)

Lemma getOpts_eq (fs : FileSystem) (argv : list string) :
  getOpts fs argv =
  let suffix :=
    if isSuffixFlag (skipn 2 argv) then nth_error (skipn 2 argv) 1
    else None in
  let args := positionalArgs argv in
  if Nat.ltb (length args) 1 || Nat.ltb 2 (length args) then (usage, Exits)
  else
    match args with
    | [] => (usage, Exits)
    | args0 :: _ =>
        let opts output :=
          {| cli_input := inputPath args0;
             cli_output := output;
             cli_suffix := truthy suffix |} in
        match truthy (nth_error args 1) with
        | Some args1 =>
            match openSync fs args1 with
            | Some fd => ([fs_openSync args1 "w"], Returns (opts fd))
            | None => ([fs_openSync args1 "w"], ThrowsFs)
            end
        | None => ([], Returns (opts 1))
        end
    end.
Proof. reflexivity. Qed.

(** [getOpts] prints the two usage lines on the error stream and
    exits with status 1, before any file is opened, exactly when the
    arguments left after [-s SUFFIX] are none or more than two. *)
Theorem getOpts_usage_iff (fs : FileSystem) (argv : list string) :
  (length (positionalArgs argv) < 1 \/ 2 < length (positionalArgs argv)) <->
  getOpts fs argv =
    ([console_error
        ("Usage: tsjoi [-s SUFFIX] INPUT [OUTPUT]" ++ LF ++
         "Read TypeScript's types from INPUT and writes Joi schemas on OUTPUT");
      process_exit 1], Exits).
Proof.
  rewrite getOpts_eq. cbv zeta.
  destruct (Nat.ltb (length (positionalArgs argv)) 1
            || Nat.ltb 2 (length (positionalArgs argv))) eqn:E.
  - split; [reflexivity|]. intros _.
    apply orb_true_iff in E as [E|E]; apply Nat.ltb_lt in E; auto.
  - apply orb_false_iff in E as [E1 E2].
    apply Nat.ltb_ge in E1, E2. split; [lia|].
    destruct (positionalArgs argv) as [|args0 rest]; [simpl in E1; lia|].
    destruct (truthy (nth_error (args0 :: rest) 1)) as [args1|];
      [destruct (openSync fs args1)|]; discriminate.
Qed.

(** [tsjoi -s Schema], the input forgotten: usage. *)
Example suffix_without_input_is_usage (fs : FileSystem) :
  getOpts fs ["node"; "tsjoi"; "-s"; "Schema"] = (usage, Exits).
Proof. reflexivity. Qed.



(** [getOpts] on one and on two arguments after the optional
    [-s SUFFIX]. *)
Lemma getOpts_input_only (fs : FileSystem) (argv : list string)
    (INPUT : string) :
  positionalArgs argv = [INPUT] ->
  getOpts fs argv =
  ([], Returns {| cli_input := inputPath INPUT;
                  cli_output := 1;
                  cli_suffix := truthy (suffixArg argv) |}).
Proof.
  intros Hpos. rewrite getOpts_eq. cbv zeta. rewrite Hpos. reflexivity.
Qed.

Lemma getOpts_input_output (fs : FileSystem) (argv : list string)
    (INPUT OUTPUT : string) :
  positionalArgs argv = [INPUT; OUTPUT] ->
  OUTPUT <> EmptyString ->
  getOpts fs argv =
  match openSync fs OUTPUT with
  | Some fd =>
      ([fs_openSync OUTPUT "w"],
       Returns {| cli_input := inputPath INPUT;
                  cli_output := fd;
                  cli_suffix := truthy (suffixArg argv) |})
  | None => ([fs_openSync OUTPUT "w"], ThrowsFs)
  end.
Proof.
  intros Hpos Ho. rewrite getOpts_eq. cbv zeta. rewrite Hpos.
  change (truthy (nth_error [INPUT; OUTPUT] 1))
    with (if String.eqb OUTPUT EmptyString then None else Some OUTPUT).
  apply String.eqb_neq in Ho. rewrite Ho.
  destruct (openSync fs OUTPUT); reflexivity.
Qed.


(** A run on a module that does not compile, and one whose write
    throws. *)
Example main_write_examples :
  main (parsesTo [TypeAliasDeclaration "Bad" thisType])
       {| openSync := fun _ => Some 3;
          readFileSync := fun _ _ => Some "type Bad = this";
          writeSync := fun _ _ _ => true |}
       ["node"; "tsjoi"; "bad.ts"] =
    ([fs_readFileSync "bad.ts"],
     ThrowsUnsupported (CannotConvertType thisType)) /\
  main (parsesTo [])
       {| openSync := fun _ => Some 3;
          readFileSync := fun _ _ => Some EmptyString;
          writeSync := fun _ _ _ => false |}
       ["node"; "tsjoi"; "empty.ts"; "out.ts"] =
    ([fs_openSync "out.ts" "w"; fs_readFileSync "empty.ts";
      fs_writeSync 3 (importLine "empty")],
     ThrowsFs).
Proof. split; reflexivity. Qed.

(** With an [OUTPUT] argument, after [-s SUFFIX] or not, the output file
    is opened for writing before the input is read and compiled: when
    [ts2joi] throws, the run ends with that error after the
    [fs.openSync] and [fs.readFileSync] calls, the output file opened and
    no [fs.writeSync] call made. *)
Theorem output_is_opened_before_compiling
    (createSourceFile : string -> string -> SourceFile) (fs : FileSystem)
    (argv : list string) (INPUT OUTPUT : string) (fd : nat) (txt : string)
    (e : UnsupportedConstruct) :
  positionalArgs argv = [INPUT; OUTPUT] ->
  OUTPUT <> EmptyString ->
  openSync fs OUTPUT = Some fd ->
  readFileSync fs [fs_openSync OUTPUT "w"] (inputPath INPUT) = Some txt ->
  ts2joi createSourceFile txt
    {| input := Some (inputPath INPUT);
       output := Some fd;
       suffix := truthy (suffixArg argv) |}
    = Throw e ->
  main createSourceFile fs argv =
  ([fs_openSync OUTPUT "w"; fs_readFileSync (inputPath INPUT)],
   ThrowsUnsupported e).
Proof.
  intros Hpos Ho Hopen Hread Hthrow. unfold main.
  rewrite (getOpts_input_output fs argv INPUT OUTPUT Hpos Ho), Hopen.
  cbn [cli_input]. rewrite Hread.
  unfold asPartial. cbn [cli_input cli_output cli_suffix].
  now rewrite Hthrow.
Qed.

(** [tsjoi -s Schema bad.ts bad.joi.ts] on [type Bad = number | boolean]. *)
Lemma output_is_opened_before_compiling_witness :
  positionalArgs ["node"; "tsjoi"; "-s"; "Schema"; "bad.ts"; "bad.joi.ts"] =
    ["bad.ts"; "bad.joi.ts"] /\
  main (parsesTo [TypeAliasDeclaration "Bad"
                    (UnionTypeNode [numberType; booleanType])])
       {| openSync := fun _ => Some 3;
          readFileSync := fun _ _ => Some "type Bad = number | boolean";
          writeSync := fun _ _ _ => true |}
       ["node"; "tsjoi"; "-s"; "Schema"; "bad.ts"; "bad.joi.ts"] =
  ([fs_openSync "bad.joi.ts" "w"; fs_readFileSync "bad.ts"],
   ThrowsUnsupported
     (CannotConvertUnion (UnionTypeNode [numberType; booleanType]))).
Proof.
  split; [reflexivity|].
  refine (output_is_opened_before_compiling
            (parsesTo [TypeAliasDeclaration "Bad"
                         (UnionTypeNode [numberType; booleanType])])
            {| openSync := fun _ => Some 3;
               readFileSync :=
                 fun _ _ => Some "type Bad = number | boolean";
               writeSync := fun _ _ _ => true |}
            ["node"; "tsjoi"; "-s"; "Schema"; "bad.ts"; "bad.joi.ts"]
            "bad.ts" "bad.joi.ts" 3
            "type Bad = number | boolean" _ eq_refl _ eq_refl eq_refl
            eq_refl).
  discriminate.
Defined.

(** With [-] as [INPUT] and no [OUTPUT], after [-s SUFFIX] or not, [main]
    reads [/dev/stdin]; that path is also the input label of [ts2joi], so
    the text passed to [fs.writeSync] for descriptor 1, the standard
    output, imports the types from [.//dev/stdin].  The run returns when
    the write returns. *)
Theorem dash_reads_standard_input
    (createSourceFile : string -> string -> SourceFile) (fs : FileSystem)
    (argv : list string) (txt text : string) :
  positionalArgs argv = ["-"] ->
  readFileSync fs [] "/dev/stdin" = Some txt ->
  ts2joi createSourceFile txt
    {| input := Some "/dev/stdin";
       output := Some 1;
       suffix := truthy (suffixArg argv) |}
    = Ok text ->
  main createSourceFile fs argv =
    ([fs_readFileSync "/dev/stdin"; fs_writeSync 1 text],
     if writeSync fs [fs_readFileSync "/dev/stdin"] 1 text
     then Returns tt
     else ThrowsFs) /\
  exists ifaces,
    text = "// Automatically generated by tsjoi" ++ LF ++
           "import Joi from 'joi'" ++ LF ++
           "import * as T from './/dev/stdin'" ++ LF ++ LF ++ ifaces.
Proof.
  intros Hpos Hread Hok. split.
  - unfold main. rewrite (getOpts_input_only fs argv "-" Hpos).
    change (inputPath "-") with "/dev/stdin".
    cbn [cli_input app]. rewrite Hread.
    unfold asPartial. cbn [cli_input cli_output cli_suffix].
    now rewrite Hok.
  - rewrite ts2joi_eq in Hok. cbn [opts_input input] in Hok.
    destruct (mapM _ _) as [ifaces|e]; [|discriminate].
    simpl in Hok. inversion Hok. eexists. reflexivity.
Qed.

(** [tsjoi -s Schema -] on [type A = string]. *)
Lemma dash_reads_standard_input_witness :
  positionalArgs ["node"; "tsjoi"; "-s"; "Schema"; "-"] = ["-"] /\
  main (parsesTo [TypeAliasDeclaration "A" stringType])
       {| openSync := fun _ => None;
          readFileSync := fun _ _ => Some "type A = string";
          writeSync := fun _ _ _ => true |}
       ["node"; "tsjoi"; "-s"; "Schema"; "-"] =
  ([fs_readFileSync "/dev/stdin";
    fs_writeSync 1
      (importLine "/dev/stdin" ++
       "export const ASchema = Joi.string()" ++ LF ++
       makeTypeGuard "isASchema" "A" "ASchema")],
   Returns tt).
Proof.
  split; [reflexivity|].
  exact (proj1 (dash_reads_standard_input
                  (parsesTo [TypeAliasDeclaration "A" stringType])
                  {| openSync := fun _ => None;
                     readFileSync := fun _ _ => Some "type A = string";
                     writeSync := fun _ _ _ => true |}
                  ["node"; "tsjoi"; "-s"; "Schema"; "-"]
                  "type A = string"
                  (importLine "/dev/stdin" ++
                   "export const ASchema = Joi.string()" ++ LF ++
                   makeTypeGuard "isASchema" "A" "ASchema")
                  eq_refl eq_refl eq_refl)).
Defined.

(** After [-s SUFFIX INPUT], [ts2joi] compiles with [SUFFIX] as its
    suffix, the empty one included, and no file is opened: the text goes
    to descriptor 1. *)
Theorem suffix_flag_sets_suffix (fs : FileSystem)
    (node script SUFFIX INPUT : string) :
  exists opts,
    getOpts fs [node; script; "-s"; SUFFIX; INPUT] = ([], Returns opts) /\
    opts_suffix (asPartial opts) = SUFFIX /\
    opts_input (asPartial opts) = inputPath INPUT /\
    cli_output opts = 1.
Proof.
  eexists. split; [reflexivity|]. split; [|split; reflexivity].
  unfold opts_suffix, asPartial. cbn.
  destruct (String.eqb_spec SUFFIX EmptyString) as [->|_]; reflexivity.
Qed.

(** ** References and declared names *)

Lemma append_inj_r (a b s : string) : a ++ s = b ++ s -> a = b.
Proof.
  revert b. induction a as [|c a IH]; intros [|c' b] H; simpl in H.
  - reflexivity.
  - exfalso. apply (f_equal String.length) in H. simpl in H.
    rewrite length_append in H. lia.
  - exfalso. apply (f_equal String.length) in H. simpl in H.
    rewrite length_append in H. lia.
  - inversion H as [[Hc Ht]]. f_equal. now apply IH.
Qed.

(** A reference by a plain identifier renders as the identifier's
    [escapedText] followed by the suffix; a reference by a qualified name
    throws.  A type alias written [identifier] is exported as
    [identifier] followed by the suffix, so the reference renders as the
    exported name exactly when its [escapedText] is [identifier]. *)
Theorem reference_renders_binding_name
    SUFFIX (id : Identifier) (required : bool) (indent : nat) :
  type2joi SUFFIX (TypeReferenceNode (EIdentifier id)) required indent =
    Ok (escapedText id ++ SUFFIX ++ requiredMarker required) /\
  (forall left right,
     type2joi SUFFIX (TypeReferenceNode (QualifiedName left right))
              required indent =
     Throw (CannotConvertQualifiedName
              (TypeReferenceNode (QualifiedName left right)))) /\
  (forall identifier type typeStr,
     type2joi SUFFIX type false 0 = Ok typeStr ->
     stmt2joi SUFFIX (TypeAliasDeclaration identifier type) =
       Ok (Some ("export const " ++ (identifier ++ SUFFIX) ++ " = " ++
                 typeStr ++ LF ++
                 makeTypeGuard ("is" ++ (identifier ++ SUFFIX)) identifier
                               (identifier ++ SUFFIX))) /\
     (type2joi SUFFIX (TypeReferenceNode (EIdentifier id)) false indent =
        Ok (identifier ++ SUFFIX) <->
      escapedText id = identifier)).
Proof.
  split; [|split].
  - simpl. now rewrite append_assoc.
  - reflexivity.
  - intros identifier type typeStr H. split.
    + simpl. now rewrite H.
    + simpl. rewrite append_empty_r. split.
      * intros E. inversion E as [E']. now apply append_inj_r in E'.
      * now intros ->.
Qed.

(** The alias [type __Foo = string] and a reference to [__Foo], whose
    [escapedText] is [___Foo]: the alias is exported as [__FooS] and the
    reference renders as [___FooS]. *)
Lemma reference_renders_binding_name_witness :
  type2joi "S" stringType false 0 = Ok "Joi.string()" /\
  stmt2joi "S" (TypeAliasDeclaration "__Foo" stringType) =
    Ok (Some ("export const __FooS = Joi.string()" ++ LF ++
              makeTypeGuard "is__FooS" "__Foo" "__FooS")) /\
  type2joi "S"
    (TypeReferenceNode (EIdentifier {| escapedText := "___Foo" |}))
    false 0 = Ok "___FooS" /\
  type2joi "S"
    (TypeReferenceNode (EIdentifier {| escapedText := "___Foo" |}))
    false 0 <> Ok ("__Foo" ++ "S").
Proof.
  split; [reflexivity|].
  pose (T := proj2 (proj2 (reference_renders_binding_name "S"
                             {| escapedText := "___Foo" |} false 0))
               "__Foo" stringType "Joi.string()" eq_refl).
  split; [exact (proj1 T)|]. split; [reflexivity|].
  intros E. apply (proj1 (proj2 T)) in E. discriminate.
Defined.
